(** * CwaWeather-backend: the weather gateway of [server.js]

    A shallow embedding of [server.js]: the static location table, the
    route handler [getWeatherByLocation] with its reshaping loop, and the
    surrounding Express routes and fallback handlers.

    Conventions.
    - JavaScript strings are [string]s holding the UTF-8 bytes of the
      source literals; the code only compares, concatenates and passes
      strings through, all of which commute with the encoding.
    - The upstream success payload is typed after the shape the code reads
      ([records.location[].weatherElement[].time[].parameter.parameterName]);
      what may be missing at run time stays optional: arrays of any length
      (an index past the end reads [undefined]) and the [parameter] of a
      time entry.
    - Exceptions are values of [exn]; code that may throw lives in
      [result], and the handler lives in a state-and-exception monad whose
      state records the responses written to [res] and the calls made
      through [axios.get].  A handler that ends in [Throw] is an [async]
      function whose promise rejects; what Express then does is not part
      of [server.js] and is left out.
    - The [cors] middleware of line 24 answers a request of method OPTIONS
      itself and lets every other request through; [request] and [app]
      describe the requests it lets through, [server] puts it in front.
    - Logging through [console] and the response headers do not influence
      any status or body modelled here and are left out. *)

From Stdlib Require Import String Ascii List ZArith Bool Lia.
Import ListNotations.
Open Scope string_scope.

(** ** Exceptions and fallible computations *)

(** A JSON value, as parsed from an HTTP body or serialised by [res.json].
    An object lists its own properties, one entry per key; numbers are
    kept as integers, the code only ever testing them for zero. *)
#[warnings="-register-all"]
Inductive json : Type :=
| JNull
| JBool (b : bool)
| JNum (n : Z)
| JStr (s : string)
| JArr (items : list json)
| JObj (fields : list (string * json)).

(** What an HTTP error response of the upstream looks like on the axios
    error object: [error.response.status] and [error.response.data]. *)
Record error_response : Type := {
  er_status : Z;
  er_data : json
}.

(** The thrown values the handler can meet: a [TypeError] raised by the
    engine (reading a property of [undefined] or [null]), or the error
    axios rejects with, whose [response] is present only when the upstream
    answered with an HTTP error. *)
Inductive exn : Type :=
| TypeError (message : string)
| AxiosError (response : option error_response).

Inductive result (A : Type) : Type :=
| Ok (a : A)
| Throw (e : exn).
Arguments Ok {A} a.
Arguments Throw {A} e.

Definition rbind {A B} (c : result A) (k : A -> result B) : result B :=
  match c with
  | Ok a => k a
  | Throw e => Throw e
  end.

Declare Scope result_scope.
Delimit Scope result_scope with result.
Notation "x <- c ;; k" := (rbind c (fun x => k))
  (at level 61, c at next level, right associativity) : result_scope.

(** [undefined.p]: what V8 reports when a property is read off
    [undefined]. *)
Definition read_of_undefined (prop : string) : exn :=
  TypeError ("Cannot read properties of undefined (reading '" ++ prop ++ "')").

Definition read_of_null (prop : string) : exn :=
  TypeError ("Cannot read properties of null (reading '" ++ prop ++ "')").

(** [arr[i].prop]-style access: index [i] of an array, then a property
    read that throws when the index is past the end. *)
Definition index_then {A} (l : list A) (i : nat) (prop : string) : result A :=
  match nth_error l i with
  | Some a => Ok a
  | None => Throw (read_of_undefined prop)
  end.

(** [Array.prototype.forEach] with a callback that updates one object in
    place: the elements are visited in order and the first exception ends
    the traversal. *)
Fixpoint forEach {S A} (f : S -> A -> result S) (l : list A) (s : S)
  : result S :=
  match l with
  | [] => Ok s
  | a :: l' => (s' <- f s a ;; forEach f l' s')%result
  end.

(** ** The location table (lines 15-21) *)

(** The values a property read on [LOCATION_MAP] can produce: a region
    name, a member inherited from [Object.prototype], or [undefined]. *)
Inductive jsval : Type :=
| VUndefined
| VString (s : string)
| VFunction (name : string)
| VObjectPrototype.

(** The own properties of the object literal, in source order. *)
Definition LOCATION_MAP : list (string * string) :=
  [ ("kaohsiung", "高雄市");
    ("taipei", "臺北市");
    ("taichung", "臺中市");
    ("miaoli", "苗栗縣") ].

(** [LOCATION_MAP] is an ordinary object literal, so a property read that
    misses the own properties continues on [Object.prototype]. *)
Definition Object_prototype : list (string * jsval) :=
  [ ("constructor", VFunction "Object");
    ("__defineGetter__", VFunction "__defineGetter__");
    ("__defineSetter__", VFunction "__defineSetter__");
    ("hasOwnProperty", VFunction "hasOwnProperty");
    ("__lookupGetter__", VFunction "__lookupGetter__");
    ("__lookupSetter__", VFunction "__lookupSetter__");
    ("isPrototypeOf", VFunction "isPrototypeOf");
    ("propertyIsEnumerable", VFunction "propertyIsEnumerable");
    ("toString", VFunction "toString");
    ("valueOf", VFunction "valueOf");
    ("__proto__", VObjectPrototype);
    ("toLocaleString", VFunction "toLocaleString") ].

Fixpoint assoc {V} (k : string) (l : list (string * V)) : option V :=
  match l with
  | [] => None
  | (k', v) :: l' => if String.eqb k k' then Some v else assoc k l'
  end.

(** [LOCATION_MAP[locationCode]] *)
Definition LOCATION_MAP_get (locationCode : string) : jsval :=
  match assoc locationCode LOCATION_MAP with
  | Some name => VString name
  | None =>
      match assoc locationCode Object_prototype with
      | Some v => v
      | None => VUndefined
      end
  end.

(** [Object.keys(LOCATION_MAP)]: the own enumerable keys, in insertion
    order. *)
Definition Object_keys {V} (o : list (string * V)) : list string :=
  map fst o.

(** JavaScript truthiness of the values above. *)
Definition truthy (v : jsval) : bool :=
  match v with
  | VUndefined => false
  | VString s => negb (String.eqb s "")
  | VFunction _ => true
  | VObjectPrototype => true
  end.

(** String conversion inside a template literal. *)
Definition to_display (v : jsval) : string :=
  match v with
  | VUndefined => "undefined"
  | VString s => s
  | VFunction name => "function " ++ name ++ "() { [native code] }"
  | VObjectPrototype => "[object Object]"
  end.

(** ** The upstream payload *)

Record parameter : Type := {
  parameterName : string
}.

Record timeEntry : Type := {
  startTime : string;
  endTime : string;
  time_parameter : option parameter   (* [.parameter], possibly missing *)
}.

Record weatherElement : Type := {
  elementName : string;
  time : list timeEntry
}.

Record locationEntry : Type := {
  locationName : string;
  location_weatherElement : list weatherElement
}.

(** [response.data.records] *)
Record records : Type := {
  datasetDescription : string;
  location : list locationEntry
}.

(** ** The reshaped forecast (lines 79-126) *)

Record forecast : Type := {
  f_startTime : string;
  f_endTime : string;
  weather : string;
  rain : string;
  minTemp : string;
  maxTemp : string;
  comfort : string;
  windSpeed : string
}.

Record weatherData : Type := {
  city : string;
  updateTime : string;
  forecasts : list forecast
}.

Definition set_weather (f : forecast) (v : string) : forecast :=
  {| f_startTime := f_startTime f; f_endTime := f_endTime f;
     weather := v; rain := rain f; minTemp := minTemp f;
     maxTemp := maxTemp f; comfort := comfort f; windSpeed := windSpeed f |}.

Definition set_rain (f : forecast) (v : string) : forecast :=
  {| f_startTime := f_startTime f; f_endTime := f_endTime f;
     weather := weather f; rain := v; minTemp := minTemp f;
     maxTemp := maxTemp f; comfort := comfort f; windSpeed := windSpeed f |}.

Definition set_minTemp (f : forecast) (v : string) : forecast :=
  {| f_startTime := f_startTime f; f_endTime := f_endTime f;
     weather := weather f; rain := rain f; minTemp := v;
     maxTemp := maxTemp f; comfort := comfort f; windSpeed := windSpeed f |}.

Definition set_maxTemp (f : forecast) (v : string) : forecast :=
  {| f_startTime := f_startTime f; f_endTime := f_endTime f;
     weather := weather f; rain := rain f; minTemp := minTemp f;
     maxTemp := v; comfort := comfort f; windSpeed := windSpeed f |}.

Definition set_comfort (f : forecast) (v : string) : forecast :=
  {| f_startTime := f_startTime f; f_endTime := f_endTime f;
     weather := weather f; rain := rain f; minTemp := minTemp f;
     maxTemp := maxTemp f; comfort := v; windSpeed := windSpeed f |}.

Definition set_windSpeed (f : forecast) (v : string) : forecast :=
  {| f_startTime := f_startTime f; f_endTime := f_endTime f;
     weather := weather f; rain := rain f; minTemp := minTemp f;
     maxTemp := maxTemp f; comfort := comfort f; windSpeed := v |}.

(** [value.parameterName], which throws when [value] is [undefined]. *)
Definition value_parameterName (value : option parameter) : result string :=
  match value with
  | Some v => Ok (parameterName v)
  | None => Throw (read_of_undefined "parameterName")
  end.

(** [(value ? value.parameterName : dflt)] *)
Definition parameterName_or (value : option parameter) (dflt : string)
  : string :=
  match value with
  | Some v => parameterName v
  | None => dflt
  end.

(** The callback handed to [forEach] (lines 100-123), for slot [i]. *)
Definition visit_element (i : nat) (f : forecast) (element : weatherElement)
  : result forecast :=
  (entry <- index_then (time element) i "parameter" ;;
   let value := time_parameter entry in
   let tag := elementName element in
   if String.eqb tag "Wx" then
     name <- value_parameterName value ;; Ok (set_weather f name)
   else if String.eqb tag "PoP" then
     Ok (set_rain f (parameterName_or value "0" ++ "%"))
   else if String.eqb tag "MinT" then
     Ok (set_minTemp f (parameterName_or value "-" ++ "°C"))
   else if String.eqb tag "MaxT" then
     Ok (set_maxTemp f (parameterName_or value "-" ++ "°C"))
   else if String.eqb tag "CI" then
     name <- value_parameterName value ;; Ok (set_comfort f name)
   else if String.eqb tag "WS" then
     name <- value_parameterName value ;; Ok (set_windSpeed f name)
   else Ok f)%result.

(** The object literal of lines 89-98. *)
Definition blank_forecast (entry0 : timeEntry) : forecast :=
  {| f_startTime := startTime entry0; f_endTime := endTime entry0;
     weather := ""; rain := ""; minTemp := ""; maxTemp := "";
     comfort := ""; windSpeed := "" |}.

(** One iteration of the [for] loop: the slot for index [i]. *)
Definition build_slot (weatherElements : list weatherElement) (i : nat)
  : result forecast :=
  (element0 <- index_then weatherElements 0 "time" ;;
   entry0 <- index_then (time element0) i "startTime" ;;
   forEach (visit_element i) weatherElements (blank_forecast entry0))%result.

(** [for (let i = ...; i < timeCount; i++) { ...; forecasts.push(forecast) }]
    with [remaining = timeCount - i] iterations still to run. *)
Fixpoint slot_loop (weatherElements : list weatherElement)
    (remaining i : nat) (acc : list forecast) : result (list forecast) :=
  match remaining with
  | O => Ok acc
  | S remaining' =>
      (slot <- build_slot weatherElements i ;;
       slot_loop weatherElements remaining' (S i) (acc ++ [slot]))%result
  end.

(** Lines 79-126: the forecast normaliser. *)
Definition normalize (datasetDescription : string) (locationData : locationEntry)
  : result weatherData :=
  let weatherElements := location_weatherElement locationData in
  (element0 <- index_then weatherElements 0 "time" ;;
   let timeCount := length (time element0) in
   slots <- slot_loop weatherElements timeCount 0 [] ;;
   Ok {| city := locationName locationData;
         updateTime := datasetDescription;
         forecasts := slots |})%result.

(** ** Responses, outbound calls and the handler monad *)

Record response : Type := {
  status : Z;
  body : json
}.

(** The one outbound request of lines 58-66. *)
Record axios_request : Type := {
  url : string;
  param_Authorization : string;
  param_locationName : jsval
}.

(** How the promise of [axios.get] settles. *)
Inductive axios_outcome : Type :=
| Resolved (data_records : records)
| Rejected (error : exn).

(** What one request leaves behind: the responses written through [res],
    and the calls issued through [axios.get], both oldest first. *)
Record world : Type := {
  sent : list response;
  outbound : list axios_request
}.

Definition M (A : Type) : Type := world -> world * result A.

Definition ret {A} (a : A) : M A := fun w => (w, Ok a).

Definition bind {A B} (c : M A) (k : A -> M B) : M B :=
  fun w =>
    match c w with
    | (w', Ok a) => k a w'
    | (w', Throw e) => (w', Throw e)
    end.

Definition lift {A} (r : result A) : M A := fun w => (w, r).

(** [try { body } catch (error) { handler }] *)
Definition try_catch {A} (body : M A) (handler : exn -> M A) : M A :=
  fun w =>
    match body w with
    | (w', Ok a) => (w', Ok a)
    | (w', Throw e) => handler e w'
    end.

Declare Scope handler_scope.
Delimit Scope handler_scope with handler.
Notation "x <- c ;; k" := (bind c (fun x => k))
  (at level 61, c at next level, right associativity) : handler_scope.

(** [res.status(code).json(payload)] *)
Definition res_status_json (code : Z) (payload : json) : M unit :=
  fun w =>
    ({| sent := sent w ++ [ {| status := code; body := payload |} ];
        outbound := outbound w |}, Ok tt).

(** [res.json(payload)]: the status stays at its default, 200. *)
Definition res_json (payload : json) : M unit := res_status_json 200 payload.

Definition empty_world : world := {| sent := []; outbound := [] |}.

Definition run {A} (c : M A) : world * result A := c empty_world.

(** *** Values on the error path *)

(** JavaScript truthiness of a JSON value. *)
Definition json_truthy (v : json) : bool :=
  match v with
  | JNull => false
  | JBool b => b
  | JNum n => negb (Z.eqb n 0)
  | JStr s => negb (String.eqb s "")
  | JArr _ => true
  | JObj _ => true
  end.

(** [data.message]: [None] stands for [undefined]; reading a property of
    [null] throws. *)
Definition data_message (data : json) : result (option json) :=
  match data with
  | JNull => Throw (read_of_null "message")
  | JObj fields => Ok (assoc "message" fields)
  | _ => Ok None
  end.

(** [v || dflt] *)
Definition or_else (v : option json) (dflt : json) : json :=
  match v with
  | Some j => if json_truthy j then j else dflt
  | None => dflt
  end.

(** [error.response] *)
Definition exn_response (error : exn) : option error_response :=
  match error with
  | TypeError _ => None
  | AxiosError r => r
  end.

(** Truthiness of an environment variable: unset and empty are falsy. *)
Definition env_truthy (v : option string) : bool :=
  match v with
  | Some s => negb (String.eqb s "")
  | None => false
  end.

Definition env_string (v : option string) : string :=
  match v with
  | Some s => s
  | None => ""
  end.

(** *** Serialising the success payload *)

Definition forecast_json (f : forecast) : json :=
  JObj [ ("startTime", JStr (f_startTime f));
         ("endTime", JStr (f_endTime f));
         ("weather", JStr (weather f));
         ("rain", JStr (rain f));
         ("minTemp", JStr (minTemp f));
         ("maxTemp", JStr (maxTemp f));
         ("comfort", JStr (comfort f));
         ("windSpeed", JStr (windSpeed f)) ].

Definition weatherData_json (d : weatherData) : json :=
  JObj [ ("city", JStr (city d));
         ("updateTime", JStr (updateTime d));
         ("forecasts", JArr (map forecast_json (forecasts d))) ].

Definition CWA_API_BASE_URL : string := "https://opendata.cwa.gov.tw/api".

(** ** The server *)

Section Server.

(** [process.env.CWA_API_KEY], read once at start-up (line 11). *)
Variable CWA_API_KEY : option string.

(** The upstream service, as seen through [axios.get]. *)
Variable upstream : axios_request -> axios_outcome.

(** [new Date().toISOString()] at the time of the request. *)
Variable now : string.

(** [await axios.get(url, { params })] *)
Definition axios_get (req : axios_request) : M records :=
  fun w =>
    ({| sent := sent w; outbound := outbound w ++ [req] |},
     match upstream req with
     | Resolved data => Ok data
     | Rejected e => Throw e
     end).

(** The request built at lines 58-66. *)
Definition forecast_request (locationName : jsval) : axios_request :=
  {| url := CWA_API_BASE_URL ++ "/v1/rest/datastore/F-C0032-001";
     param_Authorization := env_string CWA_API_KEY;
     param_locationName := locationName |}.

(** Lines 33-150. *)
Definition getWeatherByLocation (locationCode : string) : M unit :=
  let locationName := LOCATION_MAP_get locationCode in
  if negb (truthy locationName) then
    res_status_json 400
      (JObj [ ("error", JStr "輸入地區代碼無效");
              ("message",
                JStr ("地區代碼 '" ++ locationCode ++ "' 尚未定義或不支援。"));
              ("supported_locations",
                JArr (map JStr (Object_keys LOCATION_MAP))) ])
  else
    try_catch
      (if negb (env_truthy CWA_API_KEY) then
         res_status_json 500
           (JObj [ ("error", JStr "伺服器設定錯誤");
                   ("message", JStr "請在 .env 檔案中設定 CWA_API_KEY") ])
       else
         (data <- axios_get (forecast_request locationName) ;;
          match nth_error (location data) 0 with
          | None =>
              res_status_json 404
                (JObj [ ("error", JStr "查無資料");
                        ("message",
                          JStr ("無法取得 " ++ to_display locationName
                                ++ " 的天氣資料")) ])
          | Some locationData =>
              weatherData <-
                lift (normalize (datasetDescription data) locationData) ;;
              res_json
                (JObj [ ("success", JBool true);
                        ("data", weatherData_json weatherData) ])
          end)%handler)
      (fun error =>
         match exn_response error with
         | Some r =>
             (message <- lift (data_message (er_data r)) ;;
              res_status_json (er_status r)
                (JObj [ ("error", JStr "CWA API 錯誤");
                        ("message",
                          or_else message (JStr "無法取得天氣資料"));
                        ("details", er_data r) ]))%handler
         | None =>
             res_status_json 500
               (JObj [ ("error", JStr "伺服器錯誤");
                       ("message", JStr "無法取得天氣資料，請稍後再試") ])
         end).

(** A request of a method other than OPTIONS (those never get past the
    [cors] middleware, see [server]), as the Express router classifies it
    (lines 153-184): one of
    the three routes, a request on which a middleware raised an error
    (handed to the error-handling middleware), or a request no route
    matches. *)
Inductive request : Type :=
| GetRoot
| GetHealth
| GetWeather (location : string)
| MiddlewareError (err_message : string)
| Unmatched.

Definition app (req : request) : M unit :=
  match req with
  | GetRoot =>
      res_json
        (JObj [ ("message", JStr "歡迎使用 CWA 天氣預報 API");
                ("endpoints",
                  JObj [ ("dynamic_weather", JStr "/api/weather/:location");
                         ("health", JStr "/api/health") ]) ])
  | GetHealth =>
      res_json (JObj [ ("status", JStr "OK"); ("timestamp", JStr now) ])
  | GetWeather location => getWeatherByLocation location
  | MiddlewareError err_message =>
      res_status_json 500
        (JObj [ ("error", JStr "伺服器錯誤");
                ("message", JStr err_message) ])
  | Unmatched =>
      res_status_json 404 (JObj [ ("error", JStr "找不到此路徑") ])
  end.

End Server.

(** ** Observations on a response body *)

Definition has_field (k : string) (b : json) : bool :=
  match b with
  | JObj fields => match assoc k fields with Some _ => true | None => false end
  | _ => false
  end.

Definition field (k : string) (b : json) : option json :=
  match b with
  | JObj fields => assoc k fields
  | _ => None
  end.

(** ** Predicates used to state the properties *)

(** The tags whose branch reads [value.parameterName] unguarded. *)
Definition needs_parameter (tag : string) : bool :=
  String.eqb tag "Wx" || String.eqb tag "CI" || String.eqb tag "WS".

(** Element [e] can be visited for slot [i]: it has an [i]-th time entry,
    and that entry carries a parameter whenever the tag's branch needs one. *)
Definition readable_at (i : nat) (e : weatherElement) : bool :=
  match nth_error (time e) i with
  | None => false
  | Some entry =>
      match time_parameter entry with
      | Some _ => true
      | None => negb (needs_parameter (elementName e))
      end
  end.

Definition slot_readable (els : list weatherElement) (i : nat) : bool :=
  forallb (readable_at i) els.

(** Every slot counted by element 0 can be built. *)
Definition well_aligned (els : list weatherElement) : bool :=
  match els with
  | [] => false
  | e0 :: _ => forallb (slot_readable els) (seq 0 (length (time e0)))
  end.

(** The forecast field a tag is dispatched to, if any. *)
Definition slot_field (tag : string) (f : forecast) : option string :=
  if String.eqb tag "Wx" then Some (weather f)
  else if String.eqb tag "PoP" then Some (rain f)
  else if String.eqb tag "MinT" then Some (minTemp f)
  else if String.eqb tag "MaxT" then Some (maxTemp f)
  else if String.eqb tag "CI" then Some (comfort f)
  else if String.eqb tag "WS" then Some (windSpeed f)
  else None.


(** The two bodies of the [catch] block's generic branch and of the
    missing-data branch, named for the statements below. *)
Definition generic_500 : response :=
  {| status := 500;
     body := JObj [ ("error", JStr "伺服器錯誤");
                    ("message", JStr "無法取得天氣資料，請稍後再試") ] |}.

Definition is_TypeError (e : exn) : Prop := exists msg, e = TypeError msg.

(** The request ends in a 200 response: the two static routes, and the
    weather route when the code passes the guard, a credential is set, the
    upstream resolves with a first location entry, and the normaliser
    completes.  Every other request is a failure. *)
Definition succeeds (CWA_API_KEY : option string)
    (upstream : axios_request -> axios_outcome) (req : request) : bool :=
  match req with
  | GetRoot => true
  | GetHealth => true
  | GetWeather code =>
      let locationName := LOCATION_MAP_get code in
      truthy locationName && env_truthy CWA_API_KEY &&
      match upstream (forecast_request CWA_API_KEY locationName) with
      | Resolved data =>
          match nth_error (location data) 0 with
          | Some locationData =>
              match normalize (datasetDescription data) locationData with
              | Ok _ => true
              | Throw _ => false
              end
          | None => false
          end
      | Rejected _ => false
      end
  | MiddlewareError _ => false
  | Unmatched => false
  end.

(** The upstream answered this request with an HTTP error whose body is
    the JSON value [null]. *)
Definition null_error_body (CWA_API_KEY : option string)
    (upstream : axios_request -> axios_outcome) (req : request) : bool :=
  match req with
  | GetWeather code =>
      match upstream (forecast_request CWA_API_KEY (LOCATION_MAP_get code)) with
      | Rejected (AxiosError (Some r)) =>
          match er_data r with JNull => true | _ => false end
      | _ => false
      end
  | _ => false
  end.

(** The six tags the [switch] of lines 102-122 has a case for. *)
Definition recognised (tag : string) : bool :=
  String.eqb tag "Wx" || String.eqb tag "PoP" || String.eqb tag "MinT" ||
  String.eqb tag "MaxT" || String.eqb tag "CI" || String.eqb tag "WS".

(** A string that is empty or ends with [suffix]. *)
Definition blank_or_suffixed (suffix s : string) : Prop :=
  s = "" \/ exists prefix, s = prefix ++ suffix.

(** The fallback of [error.response.data.message || ...] (line 139). *)
Definition default_upstream_message : json := JStr "無法取得天氣資料".

(** The weather request on which the handler's promise rejects: the code
    passes the guard, a credential is set, and the upstream answers with an
    HTTP error whose body is [null]. *)
Definition handler_rejects (CWA_API_KEY : option string)
    (upstream : axios_request -> axios_outcome) (req : request) : bool :=
  match req with
  | GetWeather code =>
      truthy (LOCATION_MAP_get code) && env_truthy CWA_API_KEY &&
      null_error_body CWA_API_KEY upstream req
  | _ => false
  end.






(** The response of the [catch] block for an upstream HTTP error. *)
Definition upstream_error_response (r : error_response) (message : option json)
  : response :=
  {| status := er_status r;
     body := JObj [ ("error", JStr "CWA API 錯誤");
                    ("message", or_else message default_upstream_message);
                    ("details", er_data r) ] |}.

(** The decision tree of [getWeatherByLocation], path by path: what is
    left in the world and how the handler ends. *)
Definition weather_outcome (CWA_API_KEY : option string)
    (upstream : axios_request -> axios_outcome) (code : string)
  : world * result unit :=
  let locationName := LOCATION_MAP_get code in
  let req := forecast_request CWA_API_KEY locationName in
  let answer (calls : list axios_request) (resp : response) :=
    ({| sent := [resp]; outbound := calls |}, Ok tt) in
  if negb (truthy locationName) then
    answer []
      {| status := 400;
         body :=
           JObj [ ("error", JStr "輸入地區代碼無效");
                  ("message",
                    JStr ("地區代碼 '" ++ code ++ "' 尚未定義或不支援。"));
                  ("supported_locations",
                    JArr (map JStr (Object_keys LOCATION_MAP))) ] |}
  else if negb (env_truthy CWA_API_KEY) then
    answer []
      {| status := 500;
         body := JObj [ ("error", JStr "伺服器設定錯誤");
                        ("message",
                          JStr "請在 .env 檔案中設定 CWA_API_KEY") ] |}
  else
    match upstream req with
    | Resolved data =>
        match location data with
        | [] =>
            answer [req]
              {| status := 404;
                 body :=
                   JObj [ ("error", JStr "查無資料");
                          ("message",
                            JStr ("無法取得 " ++ to_display locationName
                                  ++ " 的天氣資料")) ] |}
        | locationData :: _ =>
            match normalize (datasetDescription data) locationData with
            | Ok weatherData =>
                answer [req]
                  {| status := 200;
                     body := JObj [ ("success", JBool true);
                                    ("data", weatherData_json weatherData) ] |}
            | Throw _ => answer [req] generic_500
            end
        end
    | Rejected x =>
        match exn_response x with
        | None => answer [req] generic_500
        | Some r =>
            match data_message (er_data r) with
            | Ok message => answer [req] (upstream_error_response r message)
            | Throw e => ({| sent := []; outbound := [req] |}, Throw e)
            end
        end
    end.

(** ** Sample payloads *)

Definition entry_with (s e name : string) : timeEntry :=
  {| startTime := s; endTime := e;
     time_parameter := Some {| parameterName := name |} |}.

Definition entry_bare (s e : string) : timeEntry :=
  {| startTime := s; endTime := e; time_parameter := None |}.

Definition t0 : string := "2025-01-01 06:00:00".
Definition t1 : string := "2025-01-01 18:00:00".
Definition t2 : string := "2025-01-02 06:00:00".

(** Two slots, the six known elements, one unknown element, the second
    slot without precipitation and minimum temperature. *)
Definition sample_elements : list weatherElement :=
  [ {| elementName := "Wx";
       time := [ entry_with t0 t1 "晴時多雲"; entry_with t1 t2 "多雲" ] |};
    {| elementName := "PoP";
       time := [ entry_with t0 t1 "20"; entry_bare t1 t2 ] |};
    {| elementName := "MinT";
       time := [ entry_with t0 t1 "18"; entry_bare t1 t2 ] |};
    {| elementName := "CI";
       time := [ entry_with t0 t1 "舒適"; entry_with t1 t2 "稍有寒意" ] |};
    {| elementName := "MaxT";
       time := [ entry_with t0 t1 "25"; entry_with t1 t2 "22" ] |};
    {| elementName := "UVI";
       time := [ entry_bare t0 t1; entry_bare t1 t2 ] |};
    {| elementName := "WS";
       time := [ entry_with t0 t1 "微風"; entry_with t1 t2 "強風" ] |} ].

Definition sample_location : locationEntry :=
  {| locationName := "臺北市"; location_weatherElement := sample_elements |}.

(** The same tag twice. *)
Definition repeated_elements : list weatherElement :=
  [ {| elementName := "Wx"; time := [ entry_with t0 t1 "晴" ] |};
    {| elementName := "PoP"; time := [ entry_with t0 t1 "10" ] |};
    {| elementName := "Wx"; time := [ entry_with t0 t1 "雨" ] |} ].

Definition repeated_location : locationEntry :=
  {| locationName := "臺北市"; location_weatherElement := repeated_elements |}.

(** A "Wx" entry without its parameter. *)
Definition bare_Wx_location : locationEntry :=
  {| locationName := "臺北市";
     location_weatherElement :=
       [ {| elementName := "Wx"; time := [ entry_bare t0 t1 ] |} ] |}.

(** Element 1 has one time entry fewer than element 0. *)
Definition short_PoP_location : locationEntry :=
  {| locationName := "臺北市";
     location_weatherElement :=
       [ {| elementName := "Wx";
            time := [ entry_with t0 t1 "晴"; entry_with t1 t2 "雨" ] |};
         {| elementName := "PoP"; time := [ entry_with t0 t1 "10" ] |} ] |}.

(** Element 0 without any time entry, followed by a "Wx" entry that
    lacks its parameter. *)
Definition empty_series_location : locationEntry :=
  {| locationName := "臺北市";
     location_weatherElement :=
       [ {| elementName := "PoP"; time := [] |};
         {| elementName := "Wx"; time := [ entry_bare t0 t1 ] |} ] |}.

(** An upstream error with a JSON object body. *)
Definition quota_error : error_response :=
  {| er_status := 429;
     er_data := JObj [ ("success", JStr "false");
                       ("message", JStr "Too Many Requests") ] |}.



Definition sample_key : option string := Some "CWA-TEST-KEY".

Definition upstream_resolving (ld : list locationEntry)
  : axios_request -> axios_outcome :=
  fun _ => Resolved {| datasetDescription := "三十六小時天氣預報";
                       location := ld |}.

Definition upstream_rejecting (e : exn) : axios_request -> axios_outcome :=
  fun _ => Rejected e.

Definition sample_now : string := "2025-01-01T00:00:00.000Z".

(** * Properties *)

(** ** The traversal of one slot *)

Ltac split_tag t lit :=
  let H := fresh "Htag" in
  destruct (String.eqb_spec t lit) as [H | H]; [try rewrite !H |].

Ltac case_tag t :=
  split_tag t "Wx";
  [| split_tag t "PoP";
     [| split_tag t "MinT";
        [| split_tag t "MaxT";
           [| split_tag t "CI";
              [| split_tag t "WS" ] ] ] ] ].

Lemma forEach_app {S A} (f : S -> A -> result S) (l1 l2 : list A) (s : S) :
  forEach f (l1 ++ l2) s = (s1 <- forEach f l1 s ;; forEach f l2 s1)%result.
Proof.
  revert s; induction l1 as [| a l1 IH]; intros s; simpl; [reflexivity |].
  destruct (f s a) as [s' | e]; simpl; [apply IH | reflexivity].
Qed.

Lemma visit_element_readable i f e :
  readable_at i e = true -> exists f', visit_element i f e = Ok f'.
Proof.
  unfold readable_at, visit_element, index_then, needs_parameter.
  destruct (nth_error (time e) i) as [entry |]; [| discriminate].
  simpl. destruct (time_parameter entry) as [p |]; simpl.
  - intros _. case_tag (elementName e); eexists; reflexivity.
  - case_tag (elementName e); simpl; try discriminate;
      intros _; eexists; reflexivity.
Qed.

Lemma visit_element_unreadable i f e :
  readable_at i e = false ->
  exists msg, visit_element i f e = Throw (TypeError msg).
Proof.
  unfold readable_at, visit_element, index_then, needs_parameter.
  destruct (nth_error (time e) i) as [entry |]; simpl;
    [| intros _; eexists; reflexivity].
  destruct (time_parameter entry) as [p |]; [discriminate |].
  case_tag (elementName e); simpl; try discriminate;
    intros _; eexists; reflexivity.
Qed.

Lemma visit_element_throws i f e x :
  visit_element i f e = Throw x -> is_TypeError x.
Proof.
  unfold visit_element, index_then, value_parameterName, is_TypeError.
  destruct (nth_error (time e) i) as [entry |]; simpl.
  - destruct (time_parameter entry) as [p |];
      case_tag (elementName e); simpl; intros H; inversion H;
      eexists; reflexivity.
  - intros H; inversion H; eexists; reflexivity.
Qed.

Lemma visit_element_times i f e f' :
  visit_element i f e = Ok f' ->
  f_startTime f' = f_startTime f /\ f_endTime f' = f_endTime f.
Proof.
  unfold visit_element, index_then, value_parameterName.
  destruct (nth_error (time e) i) as [entry |]; simpl; [| discriminate].
  destruct (time_parameter entry) as [p |];
    case_tag (elementName e); simpl; intros H; inversion H; auto.
Qed.


(** A successful visit leaves the fields of all other tags alone. *)
Lemma visit_element_keeps i f e f' tag :
  visit_element i f e = Ok f' ->
  elementName e <> tag ->
  slot_field tag f' = slot_field tag f.
Proof.
  unfold visit_element, index_then, value_parameterName, slot_field.
  destruct (nth_error (time e) i) as [entry |]; simpl; [| discriminate].
  intros H Hne.
  destruct (time_parameter entry) as [p |];
    case_tag (elementName e); simpl in H; inversion H; subst f'; clear H;
    case_tag tag; simpl; try reflexivity; congruence.
Qed.

Lemma forEach_visit_times i els : forall f f',
  forEach (visit_element i) els f = Ok f' ->
  f_startTime f' = f_startTime f /\ f_endTime f' = f_endTime f.
Proof.
  induction els as [| e els IH]; intros f f'; simpl.
  - intros H; inversion H; auto.
  - destruct (visit_element i f e) as [f1 |] eqn:Hv; simpl; [| discriminate].
    intros H. apply IH in H. apply visit_element_times in Hv.
    destruct H, Hv. split; congruence.
Qed.

Lemma forEach_visit_keeps i tag els : forall f f',
  forEach (visit_element i) els f = Ok f' ->
  (forall e, In e els -> elementName e <> tag) ->
  slot_field tag f' = slot_field tag f.
Proof.
  induction els as [| e els IH]; intros f f'; simpl.
  - intros H _; inversion H; reflexivity.
  - destruct (visit_element i f e) as [f1 |] eqn:Hv; simpl; [| discriminate].
    intros H Hall. rewrite (IH _ _ H) by (intros; apply Hall; auto).
    eapply visit_element_keeps; eauto.
Qed.

Lemma forEach_visit_readable i els : forall f,
  slot_readable els i = true ->
  exists f', forEach (visit_element i) els f = Ok f'.
Proof.
  unfold slot_readable.
  induction els as [| e els IH]; intros f; simpl.
  - intros _; eexists; reflexivity.
  - intros H. apply andb_true_iff in H as [He Hels].
    destruct (visit_element_readable i f e He) as [f1 Hf1].
    rewrite Hf1; simpl. apply IH, Hels.
Qed.

Lemma forEach_visit_ok_readable i els : forall f f',
  forEach (visit_element i) els f = Ok f' -> slot_readable els i = true.
Proof.
  unfold slot_readable.
  induction els as [| e els IH]; intros f f'; simpl; [reflexivity |].
  destruct (readable_at i e) eqn:He.
  - destruct (visit_element i f e) as [f1 |]; simpl; [| discriminate].
    apply IH.
  - destruct (visit_element_unreadable i f e He) as [msg Hm].
    rewrite Hm; discriminate.
Qed.

Lemma forEach_visit_throws i els : forall f x,
  forEach (visit_element i) els f = Throw x -> is_TypeError x.
Proof.
  induction els as [| e els IH]; intros f x; simpl; [discriminate |].
  destruct (visit_element i f e) as [f1 |] eqn:Hv; simpl.
  - apply IH.
  - intros H; inversion H; subst. eapply visit_element_throws; eauto.
Qed.


(** ** One slot, the loop, and the normaliser *)

Lemma build_slot_ok_inv e0 rest i f :
  build_slot (e0 :: rest) i = Ok f ->
  slot_readable (e0 :: rest) i = true /\
  exists entry0, nth_error (time e0) i = Some entry0 /\
    f_startTime f = startTime entry0 /\ f_endTime f = endTime entry0.
Proof.
  unfold build_slot, index_then. cbn [nth_error rbind].
  destruct (nth_error (time e0) i) as [entry0 |]; cbn [rbind]; [| discriminate].
  intros H. split.
  - eapply forEach_visit_ok_readable; eauto.
  - exists entry0. split; [reflexivity |].
    apply forEach_visit_times in H. exact H.
Qed.

Lemma build_slot_readable e0 rest i :
  slot_readable (e0 :: rest) i = true ->
  exists f, build_slot (e0 :: rest) i = Ok f.
Proof.
  intros H. unfold build_slot, index_then. cbn [nth_error rbind].
  assert (He0 : readable_at i e0 = true).
  { unfold slot_readable in H. simpl in H.
    apply andb_true_iff in H. tauto. }
  unfold readable_at in He0.
  destruct (nth_error (time e0) i) as [entry0 |]; [| discriminate].
  cbn [rbind]. apply forEach_visit_readable, H.
Qed.

Lemma build_slot_throws els i x :
  build_slot els i = Throw x -> is_TypeError x.
Proof.
  unfold build_slot, index_then.
  destruct (nth_error els 0) as [e0 |]; cbn [rbind].
  - destruct (nth_error (time e0) i) as [entry0 |]; cbn [rbind].
    + apply forEach_visit_throws.
    + intros H; inversion H; eexists; reflexivity.
  - intros H; inversion H; eexists; reflexivity.
Qed.

Lemma slot_loop_ok_inv els : forall n i acc l,
  slot_loop els n i acc = Ok l ->
  exists slots, l = (acc ++ slots)%list /\ length slots = n /\
    forall k f, nth_error slots k = Some f -> build_slot els (i + k) = Ok f.
Proof.
  induction n as [| n IH]; intros i acc l; simpl.
  - intros H; inversion H; subst. exists []. rewrite app_nil_r.
    repeat split. intros [| k] f; discriminate.
  - destruct (build_slot els i) as [slot |] eqn:Hslot; simpl; [| discriminate].
    intros H. apply IH in H as (slots & -> & Hlen & Hnth).
    exists (slot :: slots). rewrite <- app_assoc. simpl.
    repeat split; [congruence |].
    intros [| k] f; simpl.
    + intros Hf; inversion Hf; subst. rewrite Nat.add_0_r. exact Hslot.
    + intros Hf. apply Hnth in Hf.
      replace (i + S k) with (S i + k) by lia. exact Hf.
Qed.

Lemma slot_loop_total e0 rest : forall n i acc,
  (forall k, k < n -> slot_readable (e0 :: rest) (i + k) = true) ->
  exists l, slot_loop (e0 :: rest) n i acc = Ok l.
Proof.
  induction n as [| n IH]; intros i acc Hall; simpl.
  - eexists; reflexivity.
  - destruct (build_slot_readable e0 rest i) as [slot Hslot].
    { rewrite <- (Nat.add_0_r i). apply Hall. lia. }
    rewrite Hslot; simpl. apply IH.
    intros k Hk. replace (S i + k) with (i + S k) by lia. apply Hall. lia.
Qed.

Lemma slot_loop_throws els : forall n i acc x,
  slot_loop els n i acc = Throw x -> is_TypeError x.
Proof.
  induction n as [| n IH]; intros i acc x; simpl; [discriminate |].
  destruct (build_slot els i) as [slot |] eqn:Hslot; simpl.
  - apply IH.
  - intros H; inversion H; subst. eapply build_slot_throws; eauto.
Qed.

Lemma well_aligned_spec e0 rest :
  well_aligned (e0 :: rest) = true <->
  forall i, i < length (time e0) -> slot_readable (e0 :: rest) i = true.
Proof.
  unfold well_aligned. rewrite forallb_forall. split.
  - intros H i Hi. apply H, in_seq. lia.
  - intros H i Hi. apply in_seq in Hi. apply H. lia.
Qed.

Lemma normalize_ok_inv dd ld d :
  normalize dd ld = Ok d ->
  exists e0 rest, location_weatherElement ld = e0 :: rest /\
    city d = locationName ld /\ updateTime d = dd /\
    length (forecasts d) = length (time e0) /\
    forall i f, nth_error (forecasts d) i = Some f ->
                build_slot (e0 :: rest) i = Ok f.
Proof.
  unfold normalize, index_then.
  destruct (location_weatherElement ld) as [| e0 rest]; simpl; [discriminate |].
  destruct (slot_loop (e0 :: rest) (length (time e0)) 0 []) as [slots |] eqn:Hl;
    simpl; [| discriminate].
  intros H; inversion H; subst; clear H. simpl.
  apply slot_loop_ok_inv in Hl as (slots' & -> & Hlen & Hnth).
  exists e0, rest. repeat split; auto.
Qed.

Lemma normalize_throws dd ld x :
  normalize dd ld = Throw x -> is_TypeError x.
Proof.
  unfold normalize, index_then.
  destruct (location_weatherElement ld) as [| e0 rest]; simpl.
  - intros H; inversion H; eexists; reflexivity.
  - destruct (slot_loop (e0 :: rest) (length (time e0)) 0 []) eqn:Hl;
      simpl; [discriminate |].
    intros H; inversion H; subst. eapply slot_loop_throws; eauto.
Qed.

(** The normaliser completes exactly on the payloads whose elements all
    cover the slots counted by element 0. *)
Lemma normalize_ok_iff dd ld :
  (exists d, normalize dd ld = Ok d) <->
  well_aligned (location_weatherElement ld) = true.
Proof.
  split.
  - intros [d Hd]. apply normalize_ok_inv in Hd
      as (e0 & rest & Hels & _ & _ & Hlen & Hnth).
    rewrite Hels. apply well_aligned_spec. intros i Hi.
    destruct (nth_error (forecasts d) i) as [f |] eqn:Hf.
    + apply Hnth, build_slot_ok_inv in Hf. tauto.
    + apply nth_error_None in Hf. lia.
  - intros Hwa. unfold normalize, index_then.
    destruct (location_weatherElement ld) as [| e0 rest]; [discriminate |].
    simpl. rewrite well_aligned_spec in Hwa.
    destruct (slot_loop_total e0 rest (length (time e0)) 0 []) as [l Hl].
    { intros k Hk. apply Hwa. exact Hk. }
    rewrite Hl. simpl. eexists; reflexivity.
Qed.

(** ** The route handler, path by path *)

Section Paths.

Variable CWA_API_KEY : option string.
Variable upstream : axios_request -> axios_outcome.

Lemma run_unknown_code code :
  truthy (LOCATION_MAP_get code) = false ->
  run (getWeatherByLocation CWA_API_KEY upstream code) =
    ({| sent :=
          [ {| status := 400;
               body :=
                 JObj [ ("error", JStr "輸入地區代碼無效");
                        ("message",
                          JStr ("地區代碼 '" ++ code ++ "' 尚未定義或不支援。"));
                        ("supported_locations",
                          JArr (map JStr (Object_keys LOCATION_MAP))) ] |} ];
        outbound := [] |}, Ok tt).
Proof.
  intros H. unfold run, getWeatherByLocation. rewrite H. reflexivity.
Qed.

Lemma run_missing_key code :
  truthy (LOCATION_MAP_get code) = true ->
  env_truthy CWA_API_KEY = false ->
  run (getWeatherByLocation CWA_API_KEY upstream code) =
    ({| sent :=
          [ {| status := 500;
               body :=
                 JObj [ ("error", JStr "伺服器設定錯誤");
                        ("message",
                          JStr "請在 .env 檔案中設定 CWA_API_KEY") ] |} ];
        outbound := [] |}, Ok tt).
Proof.
  intros Hc Hk. unfold run, getWeatherByLocation, try_catch.
  rewrite Hc, Hk. reflexivity.
Qed.

Lemma run_absent_data code data :
  truthy (LOCATION_MAP_get code) = true ->
  env_truthy CWA_API_KEY = true ->
  upstream (forecast_request CWA_API_KEY (LOCATION_MAP_get code)) = Resolved data ->
  location data = [] ->
  run (getWeatherByLocation CWA_API_KEY upstream code) =
    ({| sent :=
          [ {| status := 404;
               body :=
                 JObj [ ("error", JStr "查無資料");
                        ("message",
                          JStr ("無法取得 "
                                ++ to_display (LOCATION_MAP_get code)
                                ++ " 的天氣資料")) ] |} ];
        outbound := [forecast_request CWA_API_KEY (LOCATION_MAP_get code)] |}, Ok tt).
Proof.
  intros Hc Hk Hup Hloc.
  unfold run, getWeatherByLocation, try_catch, bind, axios_get.
  rewrite Hc, Hk. simpl. rewrite Hup, Hloc. reflexivity.
Qed.

Lemma run_normalized code data locationData others weatherData :
  truthy (LOCATION_MAP_get code) = true ->
  env_truthy CWA_API_KEY = true ->
  upstream (forecast_request CWA_API_KEY (LOCATION_MAP_get code)) = Resolved data ->
  location data = locationData :: others ->
  normalize (datasetDescription data) locationData = Ok weatherData ->
  run (getWeatherByLocation CWA_API_KEY upstream code) =
    ({| sent :=
          [ {| status := 200;
               body := JObj [ ("success", JBool true);
                              ("data", weatherData_json weatherData) ] |} ];
        outbound := [forecast_request CWA_API_KEY (LOCATION_MAP_get code)] |}, Ok tt).
Proof.
  intros Hc Hk Hup Hloc Hn.
  unfold run, getWeatherByLocation, try_catch, bind, axios_get, lift.
  rewrite Hc, Hk. simpl. rewrite Hup, Hloc. simpl. rewrite Hn. reflexivity.
Qed.

Lemma run_normalize_throws code data locationData others x :
  truthy (LOCATION_MAP_get code) = true ->
  env_truthy CWA_API_KEY = true ->
  upstream (forecast_request CWA_API_KEY (LOCATION_MAP_get code)) = Resolved data ->
  location data = locationData :: others ->
  normalize (datasetDescription data) locationData = Throw x ->
  run (getWeatherByLocation CWA_API_KEY upstream code) =
    ({| sent := [generic_500]; outbound := [forecast_request CWA_API_KEY (LOCATION_MAP_get code)] |}, Ok tt).
Proof.
  intros Hc Hk Hup Hloc Hn.
  destruct (normalize_throws _ _ _ Hn) as [msg ->].
  unfold run, getWeatherByLocation, try_catch, bind, axios_get, lift.
  rewrite Hc, Hk. simpl. rewrite Hup, Hloc. simpl. rewrite Hn. reflexivity.
Qed.

Lemma run_rejected_without_response code x :
  truthy (LOCATION_MAP_get code) = true ->
  env_truthy CWA_API_KEY = true ->
  upstream (forecast_request CWA_API_KEY (LOCATION_MAP_get code)) = Rejected x ->
  exn_response x = None ->
  run (getWeatherByLocation CWA_API_KEY upstream code) =
    ({| sent := [generic_500]; outbound := [forecast_request CWA_API_KEY (LOCATION_MAP_get code)] |}, Ok tt).
Proof.
  intros Hc Hk Hup Hx.
  unfold run, getWeatherByLocation, try_catch, bind, axios_get.
  rewrite Hc, Hk. simpl. rewrite Hup, Hx. reflexivity.
Qed.

Lemma run_rejected_with_response code x r :
  truthy (LOCATION_MAP_get code) = true ->
  env_truthy CWA_API_KEY = true ->
  upstream (forecast_request CWA_API_KEY (LOCATION_MAP_get code)) = Rejected x ->
  exn_response x = Some r ->
  er_data r <> JNull ->
  exists message,
    data_message (er_data r) = Ok message /\
    run (getWeatherByLocation CWA_API_KEY upstream code) =
      ({| sent :=
            [ {| status := er_status r;
                 body :=
                   JObj [ ("error", JStr "CWA API 錯誤");
                          ("message",
                            or_else message (JStr "無法取得天氣資料"));
                          ("details", er_data r) ] |} ];
          outbound := [forecast_request CWA_API_KEY (LOCATION_MAP_get code)] |}, Ok tt).
Proof.
  intros Hc Hk Hup Hx Hnull.
  assert (Hm : exists message, data_message (er_data r) = Ok message).
  { destruct (er_data r); simpl; try (eexists; reflexivity). congruence. }
  destruct Hm as [message Hm]. exists message. split; [exact Hm |].
  unfold run, getWeatherByLocation, try_catch, bind, axios_get, lift.
  rewrite Hc, Hk. simpl. rewrite Hup, Hx. rewrite Hm. reflexivity.
Qed.

Lemma run_rejected_null_body code x r :
  truthy (LOCATION_MAP_get code) = true ->
  env_truthy CWA_API_KEY = true ->
  upstream (forecast_request CWA_API_KEY (LOCATION_MAP_get code)) = Rejected x ->
  exn_response x = Some r ->
  er_data r = JNull ->
  run (getWeatherByLocation CWA_API_KEY upstream code) =
    ({| sent := []; outbound := [forecast_request CWA_API_KEY (LOCATION_MAP_get code)] |},
     Throw (read_of_null "message")).
Proof.
  intros Hc Hk Hup Hx Hnull.
  unfold run, getWeatherByLocation, try_catch, bind, axios_get, lift.
  rewrite Hc, Hk. simpl. rewrite Hup, Hx, Hnull. reflexivity.
Qed.

End Paths.

(** ** The location table *)

Lemma supported_code_resolves code :
  In code (Object_keys LOCATION_MAP) ->
  exists name, assoc code LOCATION_MAP = Some name /\
    LOCATION_MAP_get code = VString name /\ name <> "" /\
    truthy (LOCATION_MAP_get code) = true.
Proof.
  simpl. intros [<- | [<- | [<- | [<- | []]]]];
    eexists; (split; [reflexivity |]); (split; [reflexivity |]);
    (split; [discriminate | reflexivity]).
Qed.

Lemma assoc_None_not_key {V} code (o : list (string * V)) :
  assoc code o = None <-> ~ In code (Object_keys o).
Proof.
  induction o as [| [k v] o IH]; simpl.
  - tauto.
  - destruct (String.eqb_spec code k) as [-> | Hne].
    + split; [discriminate | intros H; exfalso; apply H; auto].
    + rewrite IH. split.
      * intros H [Hk | Hin]; [congruence | auto].
      * intros H Hin. apply H. auto.
Qed.

(** A code that is neither a key of the table nor the name of a member of
    [Object.prototype] is rejected with 400 and the list of keys. *)
Lemma unknown_code_rejected key upstream code :
  ~ In code (Object_keys LOCATION_MAP) ->
  ~ In code (Object_keys Object_prototype) ->
  run (getWeatherByLocation key upstream code) =
    ({| sent :=
          [ {| status := 400;
               body :=
                 JObj [ ("error", JStr "輸入地區代碼無效");
                        ("message",
                          JStr ("地區代碼 '" ++ code ++ "' 尚未定義或不支援。"));
                        ("supported_locations",
                          JArr (map JStr (Object_keys LOCATION_MAP))) ] |} ];
        outbound := [] |}, Ok tt).
Proof.
  intros Hown Hproto. apply run_unknown_code.
  apply assoc_None_not_key in Hown. apply assoc_None_not_key in Hproto.
  unfold LOCATION_MAP_get. rewrite Hown, Hproto. reflexivity.
Qed.

(** ** Slot count and slot times *)

(** C1 (as amended).  For every payload whose first location entry is
    present and whose elements all cover the slots counted by element 0
    ([well_aligned]: the element list is not empty, every element has an
    entry at each index below N, and every "Wx", "CI" and "WS" entry there
    carries its parameter), the normaliser completes with exactly N
    forecast slots, N being the number of time entries of element 0; slot
    [i] carries the start and end time of element 0's [i]-th entry, so the
    slots come in the order of the input series. *)
Theorem normalize_slot_count dd ld e0 rest :
  location_weatherElement ld = e0 :: rest ->
  well_aligned (e0 :: rest) = true ->
  exists slots,
    normalize dd ld =
      Ok {| city := locationName ld; updateTime := dd; forecasts := slots |} /\
    length slots = length (time e0) /\
    forall i entry0, nth_error (time e0) i = Some entry0 ->
      exists slot, nth_error slots i = Some slot /\
        f_startTime slot = startTime entry0 /\
        f_endTime slot = endTime entry0.
Proof.
  intros Hels Hwa.
  assert (Hok : exists d, normalize dd ld = Ok d).
  { apply normalize_ok_iff. rewrite Hels. exact Hwa. }
  destruct Hok as [d Hd].
  destruct (normalize_ok_inv _ _ _ Hd)
    as (e0' & rest' & Hels' & Hcity & Hupd & Hlen & Hnth).
  rewrite Hels in Hels'. inversion Hels'; subst e0' rest'; clear Hels'.
  destruct d as [c u slots]. simpl in *. subst c u.
  exists slots. split; [exact Hd |]. split; [exact Hlen |].
  intros i entry0 Hentry.
  assert (Hi : i < length slots).
  { rewrite Hlen. apply nth_error_Some. congruence. }
  destruct (nth_error slots i) as [slot |] eqn:Hslot;
    [| apply nth_error_None in Hslot; lia].
  exists slot. split; [reflexivity |].
  apply Hnth, build_slot_ok_inv in Hslot as (_ & entry0' & He' & Hs & He).
  rewrite Hentry in He'. inversion He'; subst entry0'. auto.
Qed.

Lemma normalize_slot_count_witness :
  exists slots,
    normalize "三十六小時天氣預報" sample_location =
      Ok {| city := "臺北市"; updateTime := "三十六小時天氣預報";
            forecasts := slots |} /\
    length slots = 2 /\
    forall i entry0,
      nth_error [ entry_with t0 t1 "晴時多雲"; entry_with t1 t2 "多雲" ] i
        = Some entry0 ->
      exists slot, nth_error slots i = Some slot /\
        f_startTime slot = startTime entry0 /\
        f_endTime slot = endTime entry0.
Proof.
  apply (normalize_slot_count "三十六小時天氣預報" sample_location
           {| elementName := "Wx";
              time := [ entry_with t0 t1 "晴時多雲"; entry_with t1 t2 "多雲" ] |}
           (tl sample_elements)); reflexivity.
Defined.

(** The first location entry is present and element 0 counts one time
    entry, yet no slot is produced: the "Wx" entry has no parameter and
    the normaliser throws. *)
Lemma normalize_slot_count_fails_on_bare_entry :
  nth_error (location_weatherElement bare_Wx_location) 0
    = Some {| elementName := "Wx"; time := [ entry_bare t0 t1 ] |} /\
  length (time {| elementName := "Wx"; time := [ entry_bare t0 t1 ] |}) = 1 /\
  normalize "三十六小時天氣預報" bare_Wx_location
    = Throw (TypeError
               "Cannot read properties of undefined (reading 'parameterName')").
Proof. repeat split. Qed.

(** ** Elements shorter than element 0 *)

(** C4 (as amended).  When some weather element has fewer time entries
    than element 0, the normaliser does not complete: reading [.parameter]
    off the missing entry (or an earlier unguarded read) throws a
    [TypeError], no forecast is produced, and the weather route answers
    with the generic 500 body. *)
Theorem shorter_element_throws key upstream code data ld others e0 rest e :
  truthy (LOCATION_MAP_get code) = true ->
  env_truthy key = true ->
  upstream (forecast_request key (LOCATION_MAP_get code)) = Resolved data ->
  location data = ld :: others ->
  location_weatherElement ld = e0 :: rest ->
  In e (e0 :: rest) ->
  length (time e) < length (time e0) ->
  (exists msg,
     normalize (datasetDescription data) ld = Throw (TypeError msg)) /\
  run (getWeatherByLocation key upstream code) =
    ({| sent := [generic_500];
        outbound := [forecast_request key (LOCATION_MAP_get code)] |}, Ok tt).
Proof.
  intros Hc Hk Hup Hloc Hels Hin Hshort.
  destruct (normalize (datasetDescription data) ld) as [d | x] eqn:Hn.
  - exfalso.
    assert (Hwa : well_aligned (location_weatherElement ld) = true)
      by (apply (normalize_ok_iff (datasetDescription data)); eauto).
    rewrite Hels in Hwa. rewrite well_aligned_spec in Hwa.
    specialize (Hwa (length (time e)) Hshort).
    unfold slot_readable in Hwa. rewrite forallb_forall in Hwa.
    specialize (Hwa e Hin). unfold readable_at in Hwa.
    assert (Hnone : nth_error (time e) (length (time e)) = None)
      by (apply nth_error_None; lia).
    rewrite Hnone in Hwa. discriminate.
  - split.
    + destruct (normalize_throws _ _ _ Hn) as [msg ->]. eexists; reflexivity.
    + eapply run_normalize_throws; eauto.
Qed.

Lemma shorter_element_throws_witness :
  (exists msg,
     normalize "三十六小時天氣預報" short_PoP_location = Throw (TypeError msg)) /\
  run (getWeatherByLocation sample_key
         (upstream_resolving [short_PoP_location]) "taipei") =
    ({| sent := [generic_500];
        outbound := [forecast_request sample_key (VString "臺北市")] |}, Ok tt).
Proof.
  apply (shorter_element_throws sample_key
           (upstream_resolving [short_PoP_location]) "taipei"
           {| datasetDescription := "三十六小時天氣預報";
              location := [short_PoP_location] |}
           short_PoP_location []
           {| elementName := "Wx";
              time := [ entry_with t0 t1 "晴"; entry_with t1 t2 "雨" ] |}
           [ {| elementName := "PoP"; time := [ entry_with t0 t1 "10" ] |} ]
           {| elementName := "PoP"; time := [ entry_with t0 t1 "10" ] |});
    try reflexivity.
  - simpl. right. left. reflexivity.
  - simpl. lia.
Defined.

(** The "PoP" element is one entry short of element 0: the normaliser
    throws on slot 1 instead of leaving the field blank, and the route
    answers 500. *)
Lemma shorter_element_is_not_left_blank :
  normalize "三十六小時天氣預報" short_PoP_location
    = Throw (TypeError
               "Cannot read properties of undefined (reading 'parameter')") /\
  sent (fst (run (getWeatherByLocation sample_key
                    (upstream_resolving [short_PoP_location]) "taipei")))
    = [generic_500].
Proof. split; reflexivity. Qed.

(** ** What a slot's fields hold *)

(** Slot [i] of a completed normalisation is the result of [build_slot] at
    [i], whose traversal started from the blank forecast. *)
Lemma normalized_slot_traversal dd ld d i slot :
  normalize dd ld = Ok d ->
  nth_error (forecasts d) i = Some slot ->
  exists entry0,
    forEach (visit_element i) (location_weatherElement ld)
      (blank_forecast entry0) = Ok slot.
Proof.
  intros Hn Hslot.
  apply normalize_ok_inv in Hn as (e0 & rest & Hels & _ & _ & _ & Hnth).
  apply Hnth in Hslot. rewrite Hels.
  unfold build_slot, index_then in Hslot. cbn [nth_error rbind] in Hslot.
  destruct (nth_error (time e0) i) as [entry0 |]; cbn [rbind] in Hslot;
    [| discriminate].
  exists entry0. exact Hslot.
Qed.






(** ** Tags read without a guard *)

Lemma unreadable_slot els e i :
  In e els -> readable_at i e = false -> slot_readable els i = false.
Proof.
  intros Hin He. unfold slot_readable.
  destruct (forallb (readable_at i) els) eqn:Hall; [| reflexivity].
  rewrite forallb_forall in Hall. rewrite (Hall e Hin) in He. discriminate.
Qed.

(** C9.  For a slot index [i] below the slot count, if an element tagged
    "Wx", "CI" or "WS" has an [i]-th time entry without parameter, building
    slot [i] throws a [TypeError] (no default is applied), the normaliser
    throws with it, and the weather route answers with the generic 500
    body. *)
Theorem unguarded_tag_throws
    key upstream code data ld others e0 rest e i entry :
  truthy (LOCATION_MAP_get code) = true ->
  env_truthy key = true ->
  upstream (forecast_request key (LOCATION_MAP_get code)) = Resolved data ->
  location data = ld :: others ->
  location_weatherElement ld = e0 :: rest ->
  i < length (time e0) ->
  In e (e0 :: rest) ->
  elementName e = "Wx" \/ elementName e = "CI" \/ elementName e = "WS" ->
  nth_error (time e) i = Some entry ->
  time_parameter entry = None ->
  (exists msg, build_slot (e0 :: rest) i = Throw (TypeError msg)) /\
  (exists msg,
     normalize (datasetDescription data) ld = Throw (TypeError msg)) /\
  run (getWeatherByLocation key upstream code) =
    ({| sent := [generic_500];
        outbound := [forecast_request key (LOCATION_MAP_get code)] |}, Ok tt).
Proof.
  intros Hc Hk Hup Hloc Hels Hi Hin Htag Hentry Hpar.
  assert (Hunread : slot_readable (e0 :: rest) i = false).
  { apply (unreadable_slot _ e); [exact Hin |].
    unfold readable_at, needs_parameter. rewrite Hentry, Hpar.
    destruct Htag as [-> | [-> | ->]]; reflexivity. }
  split; [| assert (Hn : exists x,
              normalize (datasetDescription data) ld = Throw x); [| split]].
  - destruct (build_slot (e0 :: rest) i) as [f | x] eqn:Hb.
    + apply build_slot_ok_inv in Hb as [Hr _]. congruence.
    + destruct (build_slot_throws _ _ _ Hb) as [msg ->]. eexists; reflexivity.
  - destruct (normalize (datasetDescription data) ld) as [d | x] eqn:Hn;
      [| eexists; reflexivity].
    exfalso.
    assert (Hwa : well_aligned (location_weatherElement ld) = true)
      by (apply (normalize_ok_iff (datasetDescription data)); eauto).
    rewrite Hels in Hwa. rewrite well_aligned_spec in Hwa.
    rewrite (Hwa i Hi) in Hunread. discriminate.
  - destruct Hn as [x Hn].
    destruct (normalize_throws _ _ _ Hn) as [msg ->]. eexists; exact Hn.
  - destruct Hn as [x Hn]. eapply run_normalize_throws; eauto.
Qed.

Lemma unguarded_tag_throws_witness :
  (exists msg,
     build_slot (location_weatherElement bare_Wx_location) 0
       = Throw (TypeError msg)) /\
  (exists msg,
     normalize "三十六小時天氣預報" bare_Wx_location = Throw (TypeError msg)) /\
  run (getWeatherByLocation sample_key
         (upstream_resolving [bare_Wx_location]) "kaohsiung") =
    ({| sent := [generic_500];
        outbound := [forecast_request sample_key (VString "高雄市")] |}, Ok tt).
Proof.
  apply (unguarded_tag_throws sample_key
           (upstream_resolving [bare_Wx_location]) "kaohsiung"
           {| datasetDescription := "三十六小時天氣預報";
              location := [bare_Wx_location] |}
           bare_Wx_location []
           {| elementName := "Wx"; time := [ entry_bare t0 t1 ] |} []
           {| elementName := "Wx"; time := [ entry_bare t0 t1 ] |}
           0 (entry_bare t0 t1)); try reflexivity.
  - simpl. lia.
  - simpl. left. reflexivity.
  - left. reflexivity.
Defined.

(** ** Credential and missing data *)

(** C6.  For every supported location code, when the credential is unset
    or empty the weather route answers 500 with a body holding [error] and
    [message], and no call to the upstream is made. *)
Theorem missing_credential_500 key upstream code :
  In code (Object_keys LOCATION_MAP) ->
  env_truthy key = false ->
  exists resp,
    run (getWeatherByLocation key upstream code) =
      ({| sent := [resp]; outbound := [] |}, Ok tt) /\
    status resp = 500%Z /\
    body resp = JObj [ ("error", JStr "伺服器設定錯誤");
                       ("message", JStr "請在 .env 檔案中設定 CWA_API_KEY") ] /\
    has_field "error" (body resp) = true /\
    has_field "message" (body resp) = true.
Proof.
  intros Hin Hk.
  destruct (supported_code_resolves code Hin) as (name & _ & _ & _ & Hc).
  eexists. split; [apply run_missing_key; assumption |].
  repeat split.
Qed.

Lemma missing_credential_500_witness :
  exists resp,
    run (getWeatherByLocation (Some "")
           (upstream_resolving [sample_location]) "miaoli") =
      ({| sent := [resp]; outbound := [] |}, Ok tt) /\
    status resp = 500%Z /\
    body resp = JObj [ ("error", JStr "伺服器設定錯誤");
                       ("message", JStr "請在 .env 檔案中設定 CWA_API_KEY") ] /\
    has_field "error" (body resp) = true /\
    has_field "message" (body resp) = true.
Proof.
  apply (missing_credential_500 (Some "")
           (upstream_resolving [sample_location]) "miaoli").
  - simpl. right. right. right. left. reflexivity.
  - reflexivity.
Defined.

(** C7.  When the upstream call succeeds and its location array is empty,
    the weather route answers 404 with a body that holds [error] (and
    [message]) and neither [data] nor [details]: it is told apart from the
    upstream-error answer, which carries [details], and from the generic
    500. *)
Theorem empty_location_404 key upstream code data :
  truthy (LOCATION_MAP_get code) = true ->
  env_truthy key = true ->
  upstream (forecast_request key (LOCATION_MAP_get code)) = Resolved data ->
  location data = [] ->
  exists resp,
    run (getWeatherByLocation key upstream code) =
      ({| sent := [resp];
          outbound := [forecast_request key (LOCATION_MAP_get code)] |},
       Ok tt) /\
    status resp = 404%Z /\
    has_field "error" (body resp) = true /\
    has_field "message" (body resp) = true /\
    has_field "data" (body resp) = false /\
    has_field "details" (body resp) = false.
Proof.
  intros Hc Hk Hup Hloc.
  eexists. split; [eapply run_absent_data; eassumption |].
  repeat split.
Qed.

Lemma empty_location_404_witness :
  exists resp,
    run (getWeatherByLocation sample_key (upstream_resolving []) "taichung") =
      ({| sent := [resp];
          outbound := [forecast_request sample_key (VString "臺中市")] |},
       Ok tt) /\
    status resp = 404%Z /\
    has_field "error" (body resp) = true /\
    has_field "message" (body resp) = true /\
    has_field "data" (body resp) = false /\
    has_field "details" (body resp) = false.
Proof.
  apply (empty_location_404 sample_key (upstream_resolving []) "taichung"
           {| datasetDescription := "三十六小時天氣預報"; location := [] |});
    reflexivity.
Defined.

(** ** Codes outside the table *)

(** Every supported code resolves to its non-empty region name. *)
Lemma supported_codes_have_names :
  forall code, In code (Object_keys LOCATION_MAP) ->
    exists name, LOCATION_MAP_get code = VString name /\ name <> "".
Proof.
  intros code Hin.
  destruct (supported_code_resolves code Hin) as (name & _ & Hget & Hne & _).
  exists name. auto.
Qed.

(** C2, at the code ["constructor"].  The code is not a key of the table,
    yet [LOCATION_MAP["constructor"]] reads the inherited [Object]
    function, which is truthy: the guard of line 40 lets it through.
    Without credential the route answers 500 instead of 400; with one, the
    upstream is called with that function as [locationName], and an empty
    location array gives 404. *)
Theorem inherited_name_passes_guard :
  ~ In "constructor" (Object_keys LOCATION_MAP) /\
  LOCATION_MAP_get "constructor" = VFunction "Object" /\
  run (getWeatherByLocation None (upstream_resolving []) "constructor") =
    ({| sent :=
          [ {| status := 500;
               body :=
                 JObj [ ("error", JStr "伺服器設定錯誤");
                        ("message",
                          JStr "請在 .env 檔案中設定 CWA_API_KEY") ] |} ];
        outbound := [] |}, Ok tt) /\
  run (getWeatherByLocation sample_key (upstream_resolving []) "constructor") =
    ({| sent :=
          [ {| status := 404;
               body :=
                 JObj [ ("error", JStr "查無資料");
                        ("message",
                          JStr ("無法取得 function Object() { [native code] }"
                                ++ " 的天氣資料")) ] |} ];
        outbound := [forecast_request sample_key (VFunction "Object")] |},
     Ok tt).
Proof.
  split; [| repeat split].
  simpl. intros [H | [H | [H | [H | []]]]]; discriminate.
Qed.

(** ** Upstream failures *)

(** An upstream HTTP error whose body is not [null] is passed on with the
    upstream's status and a body made of [error], [message] and [details],
    the latter being the upstream body; a failure without response object
    gets the generic 500 body, which has no [details]. *)
Lemma upstream_failure_mapping key upstream code x :
  truthy (LOCATION_MAP_get code) = true ->
  env_truthy key = true ->
  upstream (forecast_request key (LOCATION_MAP_get code)) = Rejected x ->
  (forall r, exn_response x = Some r -> er_data r <> JNull ->
     exists resp,
       run (getWeatherByLocation key upstream code) =
         ({| sent := [resp];
             outbound := [forecast_request key (LOCATION_MAP_get code)] |},
          Ok tt) /\
       status resp = er_status r /\
       has_field "error" (body resp) = true /\
       has_field "message" (body resp) = true /\
       field "details" (body resp) = Some (er_data r)) /\
  (exn_response x = None ->
     run (getWeatherByLocation key upstream code) =
       ({| sent := [generic_500];
           outbound := [forecast_request key (LOCATION_MAP_get code)] |},
        Ok tt) /\
     has_field "details" (body generic_500) = false).
Proof.
  intros Hc Hk Hup. split.
  - intros r Hr Hnull.
    destruct (run_rejected_with_response key upstream code x r
                Hc Hk Hup Hr Hnull) as (message & _ & Hrun).
    eexists. split; [exact Hrun |]. repeat split.
  - intros Hr. split; [| reflexivity].
    eapply run_rejected_without_response; eauto.
Qed.

(** C8, at an upstream answer "503 with body [null]".  Reading
    [error.response.data.message] throws inside the [catch] block: the
    handler's promise rejects, and the handler has written no response, in
    particular none with status 503 and a [details] field. *)
Theorem null_error_body_rejects :
  run (getWeatherByLocation sample_key
         (upstream_rejecting
            (AxiosError (Some {| er_status := 503; er_data := JNull |})))
         "taipei") =
    ({| sent := [];
        outbound := [forecast_request sample_key (VString "臺北市")] |},
     Throw (TypeError "Cannot read properties of null (reading 'message')")).
Proof. reflexivity. Qed.

(** ** One error response per failure *)

(** The body of the fallback for unmatched routes has [error] and nothing
    else: no [message]. *)
Lemma unmatched_route_has_no_message :
  succeeds None (upstream_rejecting (AxiosError None)) Unmatched = false /\
  run (app None (upstream_rejecting (AxiosError None)) sample_now Unmatched) =
    ({| sent := [ {| status := 404;
                     body := JObj [ ("error", JStr "找不到此路徑") ] |} ];
        outbound := [] |}, Ok tt) /\
  has_field "message" (JObj [ ("error", JStr "找不到此路徑") ]) = false.
Proof. repeat split. Qed.

(** C5 (as amended).  Every request that ends in failure (unknown code,
    missing credential, upstream HTTP error with a body other than [null],
    absent data, transport error, exception in the normaliser, exception
    handed to the error middleware, unmatched route) gets exactly one
    response, whose body holds [error]; the body also holds [message] in
    every case but the unmatched route, whose body is [error] alone.  The
    one request left out is the one on which the handler itself throws
    ([handler_rejects]): a weather request that passes the guard and the
    credential check and is answered by the upstream with an HTTP error
    whose body is [null]. *)
Theorem failure_gets_one_error_response key upstream now req :
  succeeds key upstream req = false ->
  handler_rejects key upstream req = false ->
  exists resp out,
    run (app key upstream now req) =
      ({| sent := [resp]; outbound := out |}, Ok tt) /\
    has_field "error" (body resp) = true /\
    (req <> Unmatched -> has_field "message" (body resp) = true) /\
    (req = Unmatched -> has_field "message" (body resp) = false).
Proof.
  intros Hfail Hnull.
  destruct req as [| | code | err_message |]; simpl in Hfail;
    try discriminate.
  - (* the weather route *)
    simpl app. unfold handler_rejects in Hnull.
    destruct (truthy (LOCATION_MAP_get code)) eqn:Hc; simpl in Hfail.
    2:{ do 2 eexists. split; [apply run_unknown_code; exact Hc |].
        repeat split; intros; congruence. }
    destruct (env_truthy key) eqn:Hk; simpl in Hfail.
    2:{ do 2 eexists. split; [apply run_missing_key; assumption |].
        repeat split; intros; congruence. }
    simpl in Hnull.
    destruct (upstream (forecast_request key (LOCATION_MAP_get code)))
      as [data | x] eqn:Hup.
    + destruct (location data) as [| ld others] eqn:Hloc; simpl in Hfail.
      * do 2 eexists. split; [eapply run_absent_data; eassumption |].
        repeat split; intros; congruence.
      * destruct (normalize (datasetDescription data) ld) as [d | y] eqn:Hn;
          [discriminate |].
        do 2 eexists. split; [eapply run_normalize_throws; eassumption |].
        repeat split; intros; congruence.
    + destruct (exn_response x) as [r |] eqn:Hr.
      * assert (Hdata : er_data r <> JNull).
        { destruct x as [msg | [r' |]]; simpl in Hr; try discriminate.
          inversion Hr; subst r'. destruct (er_data r); congruence. }
        destruct (run_rejected_with_response key upstream code x r
                    Hc Hk Hup Hr Hdata) as (message & _ & Hrun).
        do 2 eexists. split; [exact Hrun |].
        repeat split; intros; congruence.
      * do 2 eexists.
        split; [eapply run_rejected_without_response; eassumption |].
        repeat split; intros; congruence.
  - (* the error-handling middleware *)
    do 2 eexists. split; [reflexivity |]. repeat split; intros; congruence.
  - (* no route matches *)
    do 2 eexists. split; [reflexivity |]. repeat split; intros; congruence.
Qed.

Lemma failure_gets_one_error_response_witness :
  exists resp out,
    run (app sample_key
           (upstream_rejecting
              (AxiosError
                 (Some {| er_status := 401;
                          er_data := JObj [ ("message", JStr "Unauthorized") ] |})))
           sample_now (GetWeather "taipei")) =
      ({| sent := [resp]; outbound := out |}, Ok tt) /\
    has_field "error" (body resp) = true /\
    (GetWeather "taipei" <> Unmatched ->
       has_field "message" (body resp) = true) /\
    (GetWeather "taipei" = Unmatched ->
       has_field "message" (body resp) = false).
Proof.
  apply (failure_gets_one_error_response sample_key
           (upstream_rejecting
              (AxiosError
                 (Some {| er_status := 401;
                          er_data := JObj [ ("message", JStr "Unauthorized") ] |})))
           sample_now (GetWeather "taipei")); reflexivity.
Defined.

(** The requests that do not fail get exactly one response, with status
    200. *)
Lemma success_gets_one_200_response key upstream now req :
  succeeds key upstream req = true ->
  exists payload out,
    run (app key upstream now req) =
      ({| sent := [ {| status := 200; body := payload |} ]; outbound := out |},
       Ok tt).
Proof.
  intros Hok.
  destruct req as [| | code | err_message |]; simpl in Hok;
    try discriminate; try (do 2 eexists; reflexivity).
  simpl app.
  apply andb_true_iff in Hok as [Hok Hup].
  apply andb_true_iff in Hok as [Hc Hk].
  destruct (upstream (forecast_request key (LOCATION_MAP_get code)))
    as [data | x] eqn:Hupstream; [| discriminate].
  destruct (location data) as [| ld others] eqn:Hloc; simpl in Hup;
    [discriminate |].
  destruct (normalize (datasetDescription data) ld) as [d | y] eqn:Hn;
    [| discriminate].
  do 2 eexists. eapply run_normalized; eassumption.
Qed.

(** * Further properties of the normaliser *)

(** ** Tags without a case *)

Lemma visit_unrecognised i f e entry :
  recognised (elementName e) = false ->
  nth_error (time e) i = Some entry ->
  visit_element i f e = Ok f.
Proof.
  unfold recognised, visit_element, index_then. intros Htag Hentry.
  rewrite Hentry. cbn [rbind]. revert Htag.
  case_tag (elementName e); simpl; intros Hrec; try discriminate; reflexivity.
Qed.

Lemma forEach_skip_unrecognised i pre e post f entry :
  recognised (elementName e) = false ->
  nth_error (time e) i = Some entry ->
  forEach (visit_element i) (pre ++ e :: post) f
    = forEach (visit_element i) (pre ++ post) f.
Proof.
  intros Htag Hentry. rewrite !forEach_app.
  destruct (forEach (visit_element i) pre f) as [f1 |]; simpl; [| reflexivity].
  rewrite (visit_unrecognised i f1 e entry Htag Hentry). reflexivity.
Qed.

Lemma slot_loop_skip_unrecognised e0 pre e post : forall n i acc,
  recognised (elementName e) = false ->
  i + n <= length (time e) ->
  slot_loop (e0 :: pre ++ e :: post) n i acc
    = slot_loop (e0 :: pre ++ post) n i acc.
Proof.
  induction n as [| n IH]; intros i acc Htag Hlen; simpl; [reflexivity |].
  assert (Hslot : build_slot (e0 :: pre ++ e :: post) i
                  = build_slot (e0 :: pre ++ post) i).
  { unfold build_slot, index_then. cbn [nth_error rbind].
    destruct (nth_error (time e0) i) as [entry0 |]; cbn [rbind];
      [| reflexivity].
    destruct (nth_error (time e) i) as [entry |] eqn:Hentry;
      [| apply nth_error_None in Hentry; lia].
    apply (forEach_skip_unrecognised i (e0 :: pre) e post _ entry Htag Hentry). }
  rewrite Hslot.
  destruct (build_slot (e0 :: pre ++ post) i) as [slot |]; simpl;
    [| reflexivity].
  apply IH; [exact Htag | lia].
Qed.

(** X7.  A weather element whose tag has no case in the [switch], placed
    after element 0 and holding at least as many time entries as element
    0, has no influence: the normaliser gives the same result, forecast or
    exception, as on the payload without that element. *)
Theorem unrecognised_element_ignored dd name e0 pre e post :
  recognised (elementName e) = false ->
  length (time e0) <= length (time e) ->
  normalize dd {| locationName := name;
                  location_weatherElement := e0 :: pre ++ e :: post |}
  = normalize dd {| locationName := name;
                    location_weatherElement := e0 :: pre ++ post |}.
Proof.
  intros Htag Hlen. unfold normalize, index_then. simpl.
  rewrite (slot_loop_skip_unrecognised e0 pre e post
             (length (time e0)) 0 [] Htag) by lia.
  reflexivity.
Qed.

Lemma unrecognised_element_ignored_witness :
  normalize "三十六小時天氣預報" sample_location
  = normalize "三十六小時天氣預報"
      {| locationName := "臺北市";
         location_weatherElement :=
           (firstn 5 sample_elements ++ skipn 6 sample_elements)%list |}.
Proof.
  apply (unrecognised_element_ignored "三十六小時天氣預報" "臺北市"
           {| elementName := "Wx";
              time := [ entry_with t0 t1 "晴時多雲"; entry_with t1 t2 "多雲" ] |}
           (firstn 4 (tl sample_elements))
           {| elementName := "UVI";
              time := [ entry_bare t0 t1; entry_bare t1 t2 ] |}
           (skipn 6 sample_elements)).
  - reflexivity.
  - simpl. lia.
Defined.

(** ** Fields no element writes *)

Lemma In_nth_error_slot {A} (l : list A) (a : A) :
  In a l -> exists i, nth_error l i = Some a.
Proof. apply In_nth_error. Qed.

Lemma normalized_slot_untouched dd ld d slot tag :
  normalize dd ld = Ok d ->
  In slot (forecasts d) ->
  (forall e, In e (location_weatherElement ld) -> elementName e <> tag) ->
  recognised tag = true ->
  slot_field tag slot = Some "".
Proof.
  intros Hn Hin Hnone Htag.
  destruct (In_nth_error_slot _ _ Hin) as [i Hslot].
  destruct (normalized_slot_traversal _ _ _ _ _ Hn Hslot) as [entry0 Hf].
  rewrite (forEach_visit_keeps _ _ _ _ _ Hf Hnone).
  unfold recognised in Htag. unfold slot_field, blank_forecast.
  revert Htag.
  case_tag tag; simpl; intros Hrec; try discriminate; reflexivity.
Qed.

(** X8.  A field whose tag no weather element carries stays the empty
    string in every slot of a completed normalisation: without a "Wx"
    element [weather] is empty, and likewise "PoP" and [rain], "MinT" and
    [minTemp], "MaxT" and [maxTemp], "CI" and [comfort], "WS" and
    [windSpeed]. *)
Theorem absent_tag_leaves_blank dd ld d slot :
  normalize dd ld = Ok d ->
  In slot (forecasts d) ->
  let absent tag :=
    forall e, In e (location_weatherElement ld) -> elementName e <> tag in
  (absent "Wx" -> weather slot = "") /\
  (absent "PoP" -> rain slot = "") /\
  (absent "MinT" -> minTemp slot = "") /\
  (absent "MaxT" -> maxTemp slot = "") /\
  (absent "CI" -> comfort slot = "") /\
  (absent "WS" -> windSpeed slot = "").
Proof.
  intros Hn Hin absent.
  repeat split; intros Habs;
    pose proof (normalized_slot_untouched _ _ _ _ _ Hn Hin Habs eq_refl) as H;
    unfold slot_field in H; simpl in H; injection H as H; exact H.
Qed.

Lemma absent_tag_leaves_blank_witness :
  exists slot,
    nth_error
      (match normalize "三十六小時天氣預報" repeated_location with
       | Ok d => forecasts d
       | Throw _ => []
       end) 0 = Some slot /\
    comfort slot = "".
Proof.
  eexists. split; [reflexivity |].
  refine (proj1 (proj2 (proj2 (proj2 (proj2
            (absent_tag_leaves_blank "三十六小時天氣預報" repeated_location
               _ _ eq_refl (or_introl eq_refl)))))) _).
  simpl. intros e [<- | [<- | [<- | []]]]; discriminate.
Defined.

(** ** Suffixes *)

Lemma visit_element_suffixes i f e f' :
  visit_element i f e = Ok f' ->
  blank_or_suffixed "%" (rain f) /\
  blank_or_suffixed "°C" (minTemp f) /\
  blank_or_suffixed "°C" (maxTemp f) ->
  blank_or_suffixed "%" (rain f') /\
  blank_or_suffixed "°C" (minTemp f') /\
  blank_or_suffixed "°C" (maxTemp f').
Proof.
  unfold visit_element, index_then, value_parameterName.
  destruct (nth_error (time e) i) as [entry |]; simpl; [| discriminate].
  intros H (Hr & Hmin & Hmax).
  destruct (time_parameter entry) as [p |];
    case_tag (elementName e); simpl in H; inversion H; subst f'; simpl;
    repeat split;
    first [ assumption
          | right; eexists; reflexivity
          | right; exists "0"; reflexivity
          | right; exists "-"; reflexivity ].
Qed.

Lemma forEach_visit_suffixes i els : forall f f',
  forEach (visit_element i) els f = Ok f' ->
  blank_or_suffixed "%" (rain f) /\
  blank_or_suffixed "°C" (minTemp f) /\
  blank_or_suffixed "°C" (maxTemp f) ->
  blank_or_suffixed "%" (rain f') /\
  blank_or_suffixed "°C" (minTemp f') /\
  blank_or_suffixed "°C" (maxTemp f').
Proof.
  induction els as [| e els IH]; intros f f'; simpl.
  - intros H; inversion H; subst; auto.
  - destruct (visit_element i f e) as [f1 |] eqn:Hv; simpl; [| discriminate].
    intros H Hinv. apply (IH _ _ H).
    eapply visit_element_suffixes; eauto.
Qed.

(** X10.  In every slot of a completed normalisation, [rain] is either
    empty or ends with "%", and [minTemp] and [maxTemp] are either empty
    or end with "°C", whatever the payload holds. *)
Theorem slot_suffix_invariant dd ld d slot :
  normalize dd ld = Ok d ->
  In slot (forecasts d) ->
  blank_or_suffixed "%" (rain slot) /\
  blank_or_suffixed "°C" (minTemp slot) /\
  blank_or_suffixed "°C" (maxTemp slot).
Proof.
  intros Hn Hin.
  destruct (In_nth_error_slot _ _ Hin) as [i Hslot].
  destruct (normalized_slot_traversal _ _ _ _ _ Hn Hslot) as [entry0 Hf].
  apply (forEach_visit_suffixes _ _ _ _ Hf).
  simpl. repeat split; left; reflexivity.
Qed.

Lemma slot_suffix_invariant_witness :
  exists slot,
    nth_error
      (match normalize "三十六小時天氣預報" sample_location with
       | Ok d => forecasts d
       | Throw _ => []
       end) 1 = Some slot /\
    blank_or_suffixed "%" (rain slot) /\
    blank_or_suffixed "°C" (minTemp slot) /\
    blank_or_suffixed "°C" (maxTemp slot).
Proof.
  eexists. split; [reflexivity |].
  apply (slot_suffix_invariant "三十六小時天氣預報" sample_location _ _ eq_refl).
  simpl. right. left. reflexivity.
Defined.

(** * Further properties of the routes *)

(** The handler, run from the empty world, follows [weather_outcome]. *)
Lemma run_weather_outcome key upstream code :
  run (getWeatherByLocation key upstream code)
  = weather_outcome key upstream code.
Proof.
  unfold weather_outcome.
  destruct (truthy (LOCATION_MAP_get code)) eqn:Hc; simpl negb; cbv iota.
  2:{ apply run_unknown_code. exact Hc. }
  destruct (env_truthy key) eqn:Hk; simpl negb; cbv iota.
  2:{ apply run_missing_key; assumption. }
  destruct (upstream (forecast_request key (LOCATION_MAP_get code)))
    as [data | x] eqn:Hup.
  - destruct (location data) as [| ld others] eqn:Hloc.
    + eapply run_absent_data; eassumption.
    + destruct (normalize (datasetDescription data) ld) as [d | y] eqn:Hn.
      * eapply run_normalized; eassumption.
      * eapply run_normalize_throws; eassumption.
  - destruct (exn_response x) as [r |] eqn:Hr.
    + destruct (er_data r) eqn:Hdata;
        try (destruct (run_rejected_with_response key upstream code x r
                         Hc Hk Hup Hr) as (message & Hm & Hrun);
             [ rewrite Hdata; discriminate
             | rewrite Hdata in Hm; rewrite Hm; exact Hrun ]).
      simpl. eapply run_rejected_null_body; eassumption.
    + eapply run_rejected_without_response; eassumption.
Qed.

(** ** The guard on the location code *)

Lemma assoc_Some_key {V} code (o : list (string * V)) v :
  assoc code o = Some v -> In code (Object_keys o).
Proof.
  induction o as [| [k w] o IH]; simpl; [discriminate |].
  destruct (String.eqb_spec code k) as [-> | Hne]; auto.
Qed.

Lemma guard_passes_iff code :
  truthy (LOCATION_MAP_get code) = true <->
  In code (Object_keys LOCATION_MAP) \/ In code (Object_keys Object_prototype).
Proof.
  split.
  - unfold LOCATION_MAP_get.
    destruct (assoc code LOCATION_MAP) as [name |] eqn:Hown.
    + intros _. left. eapply assoc_Some_key; eauto.
    + destruct (assoc code Object_prototype) as [v |] eqn:Hproto.
      * intros _. right. eapply assoc_Some_key; eauto.
      * discriminate.
  - intros [Hown | Hproto].
    + destruct (supported_code_resolves code Hown) as (name & _ & _ & _ & H).
      exact H.
    + simpl in Hproto.
      repeat (destruct Hproto as [<- | Hproto]; [reflexivity |]).
      destruct Hproto.
Qed.

(** X1.  The weather route answers with the 400 body that lists
    [supported_locations], and calls nothing, exactly for the codes that
    are neither a key of the table nor the name of a member of
    [Object.prototype]; for those codes it does so whatever the credential
    and the upstream are (the code is checked first). *)
Theorem guard_rejects_iff key upstream code :
  run (getWeatherByLocation key upstream code) =
    ({| sent :=
          [ {| status := 400;
               body :=
                 JObj [ ("error", JStr "輸入地區代碼無效");
                        ("message",
                          JStr ("地區代碼 '" ++ code ++ "' 尚未定義或不支援。"));
                        ("supported_locations",
                          JArr (map JStr (Object_keys LOCATION_MAP))) ] |} ];
        outbound := [] |}, Ok tt)
  <-> ~ In code (Object_keys LOCATION_MAP) /\
      ~ In code (Object_keys Object_prototype).
Proof.
  split.
  - intros Hrun.
    destruct (truthy (LOCATION_MAP_get code)) eqn:Hc.
    + exfalso. rewrite run_weather_outcome in Hrun.
      unfold weather_outcome in Hrun. rewrite Hc in Hrun.
      simpl negb in Hrun. cbv iota in Hrun.
      destruct (env_truthy key); simpl negb in Hrun; cbv iota in Hrun;
        [| discriminate].
      destruct (upstream (forecast_request key (LOCATION_MAP_get code)))
        as [data | x].
      * destruct (location data) as [| ld others]; [discriminate |].
        destruct (normalize (datasetDescription data) ld); discriminate.
      * destruct (exn_response x) as [r |]; [| discriminate].
        destruct (data_message (er_data r)); discriminate.
    + split; intros Hin.
      * assert (H : truthy (LOCATION_MAP_get code) = true)
          by (apply guard_passes_iff; auto).
        congruence.
      * assert (H : truthy (LOCATION_MAP_get code) = true)
          by (apply guard_passes_iff; auto).
        congruence.
  - intros [Hown Hproto]. apply unknown_code_rejected; assumption.
Qed.

(** ** Calls and responses per request *)

(** X2.  A request causes at most one call to the upstream: none on the
    static routes, the error middleware and the fallback, none on the
    weather route when the code is refused or the credential is missing,
    and otherwise exactly the one request of lines 58-66, whether the
    upstream then succeeds or fails. *)
Theorem outbound_calls key upstream now req :
  outbound (fst (run (app key upstream now req))) =
    match req with
    | GetWeather code =>
        if truthy (LOCATION_MAP_get code) && env_truthy key
        then [forecast_request key (LOCATION_MAP_get code)]
        else []
    | _ => []
    end.
Proof.
  destruct req as [| | code | err_message |]; try reflexivity.
  simpl app. rewrite run_weather_outcome. unfold weather_outcome.
  destruct (truthy (LOCATION_MAP_get code)); [| reflexivity].
  destruct (env_truthy key); [| reflexivity].
  simpl negb. cbv iota. simpl andb. cbv iota.
  destruct (upstream (forecast_request key (LOCATION_MAP_get code)))
    as [data | x].
  - destruct (location data) as [| ld others]; [reflexivity |].
    destruct (normalize (datasetDescription data) ld); reflexivity.
  - destruct (exn_response x) as [r |]; [| reflexivity].
    destruct (data_message (er_data r)); reflexivity.
Qed.

(** X3.  Every request gets exactly one response and the handler ends
    normally, except a weather request that reaches the upstream and is
    answered with an HTTP error whose body is [null]: there the handler
    ends with a [TypeError] and has written no response. *)
Theorem one_response_unless_rejected key upstream now req :
  if handler_rejects key upstream req
  then exists calls,
         run (app key upstream now req) =
           ({| sent := []; outbound := calls |},
            Throw (read_of_null "message"))
  else exists resp calls,
         run (app key upstream now req) =
           ({| sent := [resp]; outbound := calls |}, Ok tt).
Proof.
  destruct req as [| | code | err_message |];
    try (simpl; do 2 eexists; reflexivity).
  simpl app. rewrite run_weather_outcome.
  unfold handler_rejects, null_error_body, weather_outcome.
  destruct (truthy (LOCATION_MAP_get code)); simpl;
    [| do 2 eexists; reflexivity].
  destruct (env_truthy key); simpl; [| do 2 eexists; reflexivity].
  destruct (upstream (forecast_request key (LOCATION_MAP_get code)))
    as [data | x].
  - destruct (location data) as [| ld others]; [do 2 eexists; reflexivity |].
    destruct (normalize (datasetDescription data) ld);
      do 2 eexists; reflexivity.
  - destruct x as [msg | [r |]]; simpl; try (do 2 eexists; reflexivity).
    destruct (er_data r); simpl;
      first [ eexists; reflexivity | do 2 eexists; reflexivity ].
Qed.



(** ** Resolved payloads *)

(** X5.  When the upstream resolves with a first location entry, the
    weather route is all or nothing.  If every element covers the slots
    counted by element 0, the answer is 200 with [success: true] and a
    [data] object whose [city] is the entry's own [locationName], whose
    [updateTime] is the dataset description and whose [forecasts] array has
    one item per time entry of element 0.  Otherwise the answer is the
    generic 500 body: no shortened or partly filled forecast list is ever
    sent.  Location entries after the first play no part. *)
Theorem resolved_payload_all_or_nothing key upstream code data ld others :
  truthy (LOCATION_MAP_get code) = true ->
  env_truthy key = true ->
  upstream (forecast_request key (LOCATION_MAP_get code)) = Resolved data ->
  location data = ld :: others ->
  if well_aligned (location_weatherElement ld)
  then
    exists e0 rest slots,
      location_weatherElement ld = e0 :: rest /\
      length slots = length (time e0) /\
      run (getWeatherByLocation key upstream code) =
        ({| sent :=
              [ {| status := 200;
                   body :=
                     JObj [ ("success", JBool true);
                            ("data",
                              JObj [ ("city", JStr (locationName ld));
                                     ("updateTime",
                                       JStr (datasetDescription data));
                                     ("forecasts",
                                       JArr (map forecast_json slots)) ]) ]
                |} ];
            outbound := [forecast_request key (LOCATION_MAP_get code)] |},
         Ok tt)
  else
    run (getWeatherByLocation key upstream code) =
      ({| sent := [generic_500];
          outbound := [forecast_request key (LOCATION_MAP_get code)] |},
       Ok tt).
Proof.
  intros Hc Hk Hup Hloc.
  destruct (well_aligned (location_weatherElement ld)) eqn:Hwa.
  - destruct (proj2 (normalize_ok_iff (datasetDescription data) ld) Hwa)
      as [d Hd].
    destruct (normalize_ok_inv _ _ _ Hd)
      as (e0 & rest & Hels & Hcity & Hupd & Hlen & _).
    exists e0, rest, (forecasts d). split; [exact Hels |].
    split; [exact Hlen |].
    rewrite (run_normalized key upstream code data ld others d
               Hc Hk Hup Hloc Hd).
    unfold weatherData_json. rewrite Hcity, Hupd. reflexivity.
  - destruct (normalize (datasetDescription data) ld) as [d | x] eqn:Hn.
    + assert (H : well_aligned (location_weatherElement ld) = true)
        by (apply (normalize_ok_iff (datasetDescription data)); eauto).
      congruence.
    + eapply run_normalize_throws; eassumption.
Qed.

Lemma resolved_payload_all_or_nothing_witness :
  exists e0 rest slots,
    sample_elements = e0 :: rest /\
    length slots = length (time e0) /\
    run (getWeatherByLocation sample_key
           (upstream_resolving [sample_location; short_PoP_location])
           "taipei") =
      ({| sent :=
            [ {| status := 200;
                 body :=
                   JObj [ ("success", JBool true);
                          ("data",
                            JObj [ ("city", JStr "臺北市");
                                   ("updateTime", JStr "三十六小時天氣預報");
                                   ("forecasts",
                                     JArr (map forecast_json slots)) ]) ] |} ];
          outbound := [forecast_request sample_key (VString "臺北市")] |},
       Ok tt).
Proof.
  apply (resolved_payload_all_or_nothing sample_key
           (upstream_resolving [sample_location; short_PoP_location])
           "taipei"
           {| datasetDescription := "三十六小時天氣預報";
              location := [sample_location; short_PoP_location] |}
           sample_location [short_PoP_location]); reflexivity.
Defined.

(** X6.  When element 0 has no time entry, the normaliser completes with
    an empty forecast list whatever the other elements hold, and the
    weather route answers 200 with an empty [forecasts] array. *)
Theorem empty_series_gives_no_slots
    key upstream code data ld others e0 rest :
  truthy (LOCATION_MAP_get code) = true ->
  env_truthy key = true ->
  upstream (forecast_request key (LOCATION_MAP_get code)) = Resolved data ->
  location data = ld :: others ->
  location_weatherElement ld = e0 :: rest ->
  time e0 = [] ->
  normalize (datasetDescription data) ld =
    Ok {| city := locationName ld;
          updateTime := datasetDescription data;
          forecasts := [] |} /\
  run (getWeatherByLocation key upstream code) =
    ({| sent :=
          [ {| status := 200;
               body :=
                 JObj [ ("success", JBool true);
                        ("data",
                          JObj [ ("city", JStr (locationName ld));
                                 ("updateTime",
                                   JStr (datasetDescription data));
                                 ("forecasts", JArr []) ]) ] |} ];
        outbound := [forecast_request key (LOCATION_MAP_get code)] |},
     Ok tt).
Proof.
  intros Hc Hk Hup Hloc Hels Htime.
  assert (Hn : normalize (datasetDescription data) ld =
               Ok {| city := locationName ld;
                     updateTime := datasetDescription data;
                     forecasts := [] |}).
  { unfold normalize, index_then. rewrite Hels. simpl.
    rewrite Htime. reflexivity. }
  split; [exact Hn |].
  rewrite (run_normalized key upstream code data ld others _
             Hc Hk Hup Hloc Hn).
  reflexivity.
Qed.

Lemma empty_series_gives_no_slots_witness :
  normalize "三十六小時天氣預報" empty_series_location =
    Ok {| city := "臺北市"; updateTime := "三十六小時天氣預報";
          forecasts := [] |} /\
  run (getWeatherByLocation sample_key
         (upstream_resolving [empty_series_location]) "taipei") =
    ({| sent :=
          [ {| status := 200;
               body :=
                 JObj [ ("success", JBool true);
                        ("data",
                          JObj [ ("city", JStr "臺北市");
                                 ("updateTime", JStr "三十六小時天氣預報");
                                 ("forecasts", JArr []) ]) ] |} ];
        outbound := [forecast_request sample_key (VString "臺北市")] |},
     Ok tt).
Proof.
  apply (empty_series_gives_no_slots sample_key
           (upstream_resolving [empty_series_location]) "taipei"
           {| datasetDescription := "三十六小時天氣預報";
              location := [empty_series_location] |}
           empty_series_location []
           {| elementName := "PoP"; time := [] |}
           [ {| elementName := "Wx"; time := [ entry_bare t0 t1 ] |} ]);
    reflexivity.
Defined.

(** ** Upstream HTTP errors *)

(** X9.  An upstream HTTP error whose body is not [null] is answered with
    the upstream's status and a body of exactly [error], [message] and
    [details], where [details] is the upstream body.  [message] is the
    body's own [message] member when the body is an object that has one
    and it is truthy; in every other case (no such member, a falsy one, or
    a body that is not an object) it is the fixed fallback text. *)
Theorem upstream_error_passed_on key upstream code r :
  truthy (LOCATION_MAP_get code) = true ->
  env_truthy key = true ->
  upstream (forecast_request key (LOCATION_MAP_get code))
    = Rejected (AxiosError (Some r)) ->
  er_data r <> JNull ->
  exists message,
    run (getWeatherByLocation key upstream code) =
      ({| sent :=
            [ {| status := er_status r;
                 body := JObj [ ("error", JStr "CWA API 錯誤");
                                ("message", message);
                                ("details", er_data r) ] |} ];
          outbound := [forecast_request key (LOCATION_MAP_get code)] |},
       Ok tt) /\
    (forall m, field "message" (er_data r) = Some m ->
               json_truthy m = true -> message = m) /\
    (forall m, field "message" (er_data r) = Some m ->
               json_truthy m = false -> message = default_upstream_message) /\
    (field "message" (er_data r) = None ->
     message = default_upstream_message).
Proof.
  intros Hc Hk Hup Hnull.
  destruct (run_rejected_with_response key upstream code _ r
              Hc Hk Hup eq_refl Hnull) as (message & Hm & Hrun).
  exists (or_else message default_upstream_message).
  split; [exact Hrun |].
  assert (Hfield : message = field "message" (er_data r)).
  { destruct (er_data r); simpl in *; congruence. }
  rewrite <- Hfield.
  repeat split.
  - intros m -> Ht. simpl. rewrite Ht. reflexivity.
  - intros m -> Ht. simpl. rewrite Ht. reflexivity.
  - intros ->. reflexivity.
Qed.

Lemma upstream_error_passed_on_witness :
  exists message,
    run (getWeatherByLocation sample_key
           (upstream_rejecting (AxiosError (Some quota_error))) "miaoli") =
      ({| sent :=
            [ {| status := 429;
                 body := JObj [ ("error", JStr "CWA API 錯誤");
                                ("message", message);
                                ("details", er_data quota_error) ] |} ];
          outbound := [forecast_request sample_key (VString "苗栗縣")] |},
       Ok tt) /\
    (forall m, field "message" (er_data quota_error) = Some m ->
               json_truthy m = true -> message = m) /\
    (forall m, field "message" (er_data quota_error) = Some m ->
               json_truthy m = false -> message = default_upstream_message) /\
    (field "message" (er_data quota_error) = None ->
     message = default_upstream_message).
Proof.
  apply (upstream_error_passed_on sample_key
           (upstream_rejecting (AxiosError (Some quota_error))) "miaoli"
           quota_error); try reflexivity.
  discriminate.
Defined.

(** ** Failures without a response object *)

(** X11.  When the upstream call fails with an error that carries no
    [response] (a transport failure), the weather route answers with the
    generic 500 body: the same fixed [error] and [message] whatever the
    error was, and no [details]. *)
Theorem transport_error_generic_500 key upstream code x :
  truthy (LOCATION_MAP_get code) = true ->
  env_truthy key = true ->
  upstream (forecast_request key (LOCATION_MAP_get code)) = Rejected x ->
  exn_response x = None ->
  run (getWeatherByLocation key upstream code) =
    ({| sent :=
          [ {| status := 500;
               body :=
                 JObj [ ("error", JStr "伺服器錯誤");
                        ("message",
                          JStr "無法取得天氣資料，請稍後再試") ] |} ];
        outbound := [forecast_request key (LOCATION_MAP_get code)] |},
     Ok tt).
Proof.
  intros Hc Hk Hup Hx.
  rewrite run_weather_outcome. unfold weather_outcome.
  rewrite Hc, Hk. simpl negb. cbv iota. rewrite Hup, Hx. reflexivity.
Qed.

Lemma transport_error_generic_500_witness :
  run (getWeatherByLocation sample_key
         (upstream_rejecting (AxiosError None)) "kaohsiung") =
    ({| sent :=
          [ {| status := 500;
               body :=
                 JObj [ ("error", JStr "伺服器錯誤");
                        ("message",
                          JStr "無法取得天氣資料，請稍後再試") ] |} ];
        outbound := [forecast_request sample_key (VString "高雄市")] |},
     Ok tt).
Proof.
  apply (transport_error_generic_500 sample_key
           (upstream_rejecting (AxiosError None)) "kaohsiung"
           (AxiosError None)); reflexivity.
Defined.
